(** * Speed Camera API: a shallow embedding of [main.py]

    The service keeps one table, [cameras], behind five request handlers.
    The embedding follows the source top-down:

    - Python [str] values are sequences of Unicode code points ([list N]),
      Python [int] values are [Z];
    - the [cameras] table is a finite map from the primary key [id] to the
      five non-null columns of [CameraDB];
    - a handler takes the table and returns its outcome (the response
      value or the raised exception) together with the table after the
      request;
    - the query operators the handlers call ([filter], [first], [all],
      [==], [ilike]) and the session operations ([add], [commit],
      [refresh], [delete]) are embedded with the meaning they have on the
      default backend of the source, SQLite ([DATABASE_URL] falls back to
      [sqlite:///./speed_cameras.db]);
    - Python integers are unbounded and the keys of the engine are 64-bit:
      an id that does not fit cannot be bound to a statement.  The text
      functions of the engine read a string up to its first NUL character
      and refuse a LIKE pattern of more than 50000 bytes.  Failures of the
      storage medium are left out. *)

From Stdlib Require Import ZArith NArith List String Ascii Bool Lia FinFun.
From stdpp Require Import base option list gmap fin_maps.

#[local] Open Scope Z_scope.

(** ** Python strings *)

Module Py.

(** A [str] is a sequence of code points. *)
Abbreviation str := (list N).

(** [lit "abc"] is the [str] whose characters are the bytes of an ASCII
    literal. *)
Definition lit (s : string) : str := map N_of_ascii (list_ascii_of_string s).

(** [len(s)] *)
Definition len (s : str) : Z := Z.of_nat (length s).

(** [s == t] on strings. *)
Definition str_eqb (s t : str) : bool := bool_decide (s = t).

Definition in_range (lo hi c : N) : bool := ((lo <=? c) && (c <=? hi))%N.

(** The code points [0] .. [9]. *)
Definition ascii_digit (c : N) : bool := in_range 48 57 c.

(** Code points of the digit zero of every decimal number system of
    Unicode 14.0 (general category Nd); each is followed by its digits
    one to nine. *)
Definition decimal_zeros : list N :=
  [ 48; 1632; 1776; 1984; 2406; 2534; 2662; 2790; 2918; 3046; 3174; 3302;
    3430; 3558; 3664; 3792; 3872; 4160; 4240; 6112; 6160; 6470; 6608; 6784;
    6800; 6992; 7088; 7232; 7248; 42528; 43216; 43264; 43472; 43504; 43600;
    44016; 65296; 66720; 68912; 69734; 69872; 69942; 70096; 70384; 70736;
    70864; 71248; 71360; 71472; 71904; 72016; 72784; 73040; 73120; 92768;
    92864; 93008; 120782; 120792; 120802; 120812; 120822; 123200; 123632;
    125264; 130032 ]%N.

(** The class [\d] of a regular expression over [str]: any decimal digit,
    not only the ASCII ones. *)
Definition decimal_digit (c : N) : bool :=
  existsb (fun z => in_range z (z + 9) c) decimal_zeros.

(** Characters with Numeric_Type=Digit that are not decimal: superscripts,
    subscripts, circled and parenthesised digits and the like. *)
Definition other_digit_ranges : list (N * N) :=
  [ (178, 179); (185, 185); (4969, 4977); (6618, 6618); (8304, 8304);
    (8308, 8313); (8320, 8329); (9312, 9320); (9332, 9340); (9352, 9360);
    (9450, 9450); (9461, 9469); (9471, 9471); (10102, 10110);
    (10112, 10120); (10122, 10130); (68160, 68163); (69216, 69224);
    (69714, 69722); (127232, 127242) ]%N.

Definition digit_char (c : N) : bool :=
  decimal_digit c || existsb (fun r => in_range (fst r) (snd r) c) other_digit_ranges.

(** [s.isdigit()]: every character is a digit and there is at least one. *)
Definition isdigit (s : str) : bool :=
  match s with
  | [] => false
  | _ => forallb digit_char s
  end.

(** The pattern [^\d{5}$] that the models and the search query declare,
    as the validation library matches it against a [str]: five characters
    of the class [\d] and nothing before or after them. *)
Definition match_5_digits (s : str) : bool :=
  (length s =? 5)%nat && forallb decimal_digit s.

(** [t.startswith(s)] and [s in t]. *)
Fixpoint startswith (t s : str) {struct s} : bool :=
  match s, t with
  | [], _ => true
  | _ :: _, [] => false
  | c :: s', d :: t' => (c =? d)%N && startswith t' s'
  end.


End Py.

(** ** Outcomes of a handler *)

(** The exceptions a request can end in.  [HTTPException] is raised by the
    handlers themselves, [ValueError] by a field validator,
    [RequestValidationError] by the framework when a declared parameter or
    body model rejects its input, [IntegrityError] by [commit] when the
    table refuses a row, [OverflowError] by the driver when an integer
    does not fit a parameter of a statement, and [OperationalError] by the
    engine when it gives up on a statement. *)
Inductive exn : Type :=
| HTTPException (status_code : Z) (detail : Py.str)
| ValueError (message : Py.str)
| RequestValidationError
| IntegrityError
| OverflowError
| OperationalError.

Inductive outcome (A : Type) : Type :=
| Return (a : A)
| Raise (e : exn).

Arguments Return {A} a.
Arguments Raise {A} e.

Definition returned {A} (o : outcome A) : bool :=
  match o with Return _ => true | Raise _ => false end.

(** ** SQL text operators *)

Module Sql.
Import Py.

(** [lower(x)] of SQLite folds the letters A .. Z and nothing else. *)
Definition lower_char (c : N) : N := if in_range 65 90 c then (c + 32)%N else c.
Definition lower (s : str) : str := map lower_char s.

Definition percent : N := 37.
Definition underscore : N := 95.

(** The comparison at the heart of [LIKE]: [%] stands for any run of
    characters, [_] for exactly one, every other character for itself up
    to ASCII letter case.  There is no escape character unless an ESCAPE
    clause names one, and [ilike] is called without. *)
Fixpoint pattern_compare (p t : str) {struct p} : bool :=
  match p with
  | [] => match t with [] => true | _ :: _ => false end
  | c :: p' =>
      if (c =? percent)%N then
        (fix skip (t : str) : bool :=
           pattern_compare p' t || match t with [] => false | _ :: t' => skip t' end) t
      else
        match t with
        | [] => false
        | d :: t' =>
            ((c =? underscore)%N || (lower_char c =? lower_char d)%N) &&
            pattern_compare p' t'
        end
  end.

(** The part of a string before its first NUL character: what the
    comparison sees of a pattern and of a text. *)
Fixpoint until_nul (s : str) : str :=
  match s with
  | [] => []
  | c :: s' => if (c =? 0)%N then [] else c :: until_nul s'
  end.

(** The number of bytes of a string in UTF-8. *)
Definition utf8_bytes (c : N) : Z :=
  if (c <? 128)%N then 1 else if (c <? 2048)%N then 2
  else if (c <? 65536)%N then 3 else 4.

Definition utf8_length (s : str) : Z := fold_right (fun c n => utf8_bytes c + n) 0 s.

(** The default of SQLITE_MAX_LIKE_PATTERN_LENGTH. *)
Definition max_like_pattern_length : Z := 50000.

(** [t LIKE p]: a pattern of more bytes than the limit, NUL or not, is
    refused with "LIKE or GLOB pattern too complex"; otherwise pattern and
    text are compared up to their first NUL. *)
Definition like (p t : str) : outcome bool :=
  if max_like_pattern_length <? utf8_length p then Raise OperationalError
  else Return (pattern_compare (until_nul p) (until_nul t)).

(** [column.ilike(pattern)], rendered as [lower(column) LIKE lower(pattern)]. *)
Definition ilike (column pattern : str) : outcome bool :=
  like (lower pattern) (lower column).

(** [a OR b] in a WHERE clause whose operands can fail. *)
Definition or_where (a b : outcome bool) : outcome bool :=
  match a with
  | Raise e => Raise e
  | Return true => Return true
  | Return false => b
  end.

(** A WHERE clause over the rows a scan visits: the rows are tested in
    turn, and the first failure ends the statement. *)
Fixpoint filter_where {A} (test : A -> outcome bool) (rows : list A) : outcome (list A) :=
  match rows with
  | [] => Return []
  | r :: rows' =>
      match test r with
      | Raise e => Raise e
      | Return keep =>
          match filter_where test rows' with
          | Raise e => Raise e
          | Return kept => Return (if keep then r :: kept else kept)
          end
      end
  end.

(** Whether an integer can be bound to a parameter: the INTEGER of the
    engine has 64 bits. *)
Definition fits_int64 (n : Z) : bool :=
  (- 2 ^ 63 <=? n) && (n <=? 2 ^ 63 - 1).

(** The f-string ["%{street}%"]. *)
Definition wrap_percent (street : str) : str := percent :: street ++ [percent].


(** A string without a NUL character. *)
Definition nul_free (s : str) : bool := forallb (fun c => negb (c =? 0)%N) s.

End Sql.

Import Py Sql.

(** ** The data model *)

(** The five columns next to [id], with the types [CameraCreate] declares
    for them.  A stored row holds exactly these: every column of [CameraDB]
    is [nullable=False]. *)
Module Columns.
Record t : Type := mk {
  cross_street_1 : str;
  cross_street_2 : str;
  zipcode : str;
  speed_limit : Z;
  direction : str
}.
End Columns.

(** [class CameraCreate(BaseModel)] *)
Abbreviation CameraCreate := Columns.t.

(** [class Camera(BaseModel)], the response schema: a row read back with
    its key. *)
Module Camera.
Record t : Type := mk {
  id : Z;
  columns : Columns.t
}.
Definition cross_street_1 (c : t) : str := Columns.cross_street_1 (columns c).
Definition cross_street_2 (c : t) : str := Columns.cross_street_2 (columns c).
Definition zipcode (c : t) : str := Columns.zipcode (columns c).
Definition speed_limit (c : t) : Z := Columns.speed_limit (columns c).
Definition direction (c : t) : str := Columns.direction (columns c).
End Camera.

(** A field of [CameraUpdate] is left out of the request ([Unset]) or
    supplied ([Given]); a supplied value of an [Optional] field is [None]
    (JSON null) or a value of the field's type. *)
Inductive provided (A : Type) : Type :=
| Unset
| Given (v : option A).

Arguments Unset {A}.
Arguments Given {A} v.

(** [class CameraUpdate(BaseModel)] *)
Module CameraUpdate.
Record t : Type := mk {
  cross_street_1 : provided str;
  cross_street_2 : provided str;
  zipcode : provided str;
  speed_limit : provided Z;
  direction : provided str
}.
End CameraUpdate.

(** [class CameraDB(Base)], an object of the session.  Its attributes can
    hold [None] in memory; [id] is [None] until the row is inserted. *)
Module CameraDB.
Record t : Type := mk {
  id : option Z;
  cross_street_1 : option str;
  cross_street_2 : option str;
  zipcode : option str;
  speed_limit : option Z;
  direction : option str
}.
End CameraDB.

(** The names of the updatable attributes, and one [(key, value)] pair of
    a dumped model: the constructor is the key. *)
Inductive field : Type :=
| f_cross_street_1 | f_cross_street_2 | f_zipcode | f_speed_limit | f_direction.

Inductive item : Type :=
| item_cross_street_1 (v : option str)
| item_cross_street_2 (v : option str)
| item_zipcode (v : option str)
| item_speed_limit (v : option Z)
| item_direction (v : option str).

(** [getattr(o, k) is None] *)
Definition attr_is_None (o : CameraDB.t) (k : field) : bool :=
  match k with
  | f_cross_street_1 => bool_decide (CameraDB.cross_street_1 o = None)
  | f_cross_street_2 => bool_decide (CameraDB.cross_street_2 o = None)
  | f_zipcode => bool_decide (CameraDB.zipcode o = None)
  | f_speed_limit => bool_decide (CameraDB.speed_limit o = None)
  | f_direction => bool_decide (CameraDB.direction o = None)
  end.

(** The [cameras] table: primary key to columns. *)
Abbreviation Table := (gmap Z Columns.t).

(** ** Validation *)

(** [Field(..., min_length=1, max_length=100)] *)
Definition street_ok (s : str) : bool := (1 <=? len s) && (len s <=? 100).

(** [Field(..., ge=5, le=85)] *)
Definition speed_limit_ok (n : Z) : bool := (5 <=? n) && (n <=? 85).

Definition valid_directions : list str :=
  [lit "N"; lit "S"; lit "E"; lit "W"; lit "NE"; lit "NW"; lit "SE"; lit "SW"].

(** The text of [f'Direction must be one of {valid_directions}']. *)
Definition direction_message : str :=
  lit "Direction must be one of ['N', 'S', 'E', 'W', 'NE', 'NW', 'SE', 'SW']".

(** [CameraCreate.validate_direction] *)
Definition validate_direction (v : str) : outcome str :=
  if negb (existsb (str_eqb v) valid_directions)
  then Raise (ValueError direction_message)
  else Return v.

(** [CameraUpdate.validate_direction] *)
Definition validate_direction_optional (v : option str) : outcome (option str) :=
  match v with
  | Some d =>
      if negb (existsb (str_eqb d) valid_directions)
      then Raise (ValueError direction_message)
      else Return v
  | None => Return v
  end.

(** Whether a [CameraCreate] body passes its model. *)
Definition CameraCreate_valid (c : CameraCreate) : bool :=
  street_ok (Columns.cross_street_1 c) &&
  street_ok (Columns.cross_street_2 c) &&
  match_5_digits (Columns.zipcode c) &&
  speed_limit_ok (Columns.speed_limit c) &&
  returned (validate_direction (Columns.direction c)).

(** An [Optional] field with constraints: the constraints bear on a value,
    [None] passes, and a field left out is not validated. *)
Definition optional_ok {A} (ok : A -> bool) (p : provided A) : bool :=
  match p with
  | Unset => true
  | Given None => true
  | Given (Some v) => ok v
  end.

(** Whether a [CameraUpdate] body passes its model. *)
Definition CameraUpdate_valid (u : CameraUpdate.t) : bool :=
  optional_ok street_ok (CameraUpdate.cross_street_1 u) &&
  optional_ok street_ok (CameraUpdate.cross_street_2 u) &&
  optional_ok match_5_digits (CameraUpdate.zipcode u) &&
  optional_ok speed_limit_ok (CameraUpdate.speed_limit u) &&
  match CameraUpdate.direction u with
  | Unset => true
  | Given v => returned (validate_direction_optional v)
  end.

(** ** The session *)

(** [db.query(CameraDB)]: the rows of the table, each with its key.  No
    ORDER BY is ever given; the rows come in the order of the map. *)
Definition query (db : Table) : list Camera.t :=
  map (fun kv => Camera.mk (fst kv) (snd kv)) (map_to_list db).

(** A row is stored when the table maps its key to its columns. *)
Definition stored (r : Camera.t) (db : Table) : Prop :=
  db !! Camera.id r = Some (Camera.columns r).

(** [.first()] and [.all()] of a query. *)
Definition first {A} (rows : list A) : option A := head rows.
Definition all {A} (rows : list A) : list A := rows.

(** [CameraDB] called on the keywords of [camera.model_dump()]: a pending
    object, not yet keyed. *)
Definition CameraDB_of_model (camera : CameraCreate) : CameraDB.t :=
  CameraDB.mk None
    (Some (Columns.cross_street_1 camera))
    (Some (Columns.cross_street_2 camera))
    (Some (Columns.zipcode camera))
    (Some (Columns.speed_limit camera))
    (Some (Columns.direction camera)).

(** The object the session hands out for a row it has read. *)
Definition CameraDB_of_row (row : Camera.t) : CameraDB.t :=
  CameraDB.mk (Some (Camera.id row))
    (Some (Camera.cross_street_1 row))
    (Some (Camera.cross_street_2 row))
    (Some (Camera.zipcode row))
    (Some (Camera.speed_limit row))
    (Some (Camera.direction row)).

(** [setattr(db_camera, key, value)] *)
Definition setattr (o : CameraDB.t) (it : item) : CameraDB.t :=
  match it with
  | item_cross_street_1 v =>
      CameraDB.mk (CameraDB.id o) v (CameraDB.cross_street_2 o)
        (CameraDB.zipcode o) (CameraDB.speed_limit o) (CameraDB.direction o)
  | item_cross_street_2 v =>
      CameraDB.mk (CameraDB.id o) (CameraDB.cross_street_1 o) v
        (CameraDB.zipcode o) (CameraDB.speed_limit o) (CameraDB.direction o)
  | item_zipcode v =>
      CameraDB.mk (CameraDB.id o) (CameraDB.cross_street_1 o)
        (CameraDB.cross_street_2 o) v (CameraDB.speed_limit o)
        (CameraDB.direction o)
  | item_speed_limit v =>
      CameraDB.mk (CameraDB.id o) (CameraDB.cross_street_1 o)
        (CameraDB.cross_street_2 o) (CameraDB.zipcode o) v
        (CameraDB.direction o)
  | item_direction v =>
      CameraDB.mk (CameraDB.id o) (CameraDB.cross_street_1 o)
        (CameraDB.cross_street_2 o) (CameraDB.zipcode o)
        (CameraDB.speed_limit o) v
  end.

(** The NOT NULL constraints of the five columns: the values to write, or
    nothing when an attribute holds [None]. *)
Definition not_null (o : CameraDB.t) : option Columns.t :=
  match CameraDB.cross_street_1 o, CameraDB.cross_street_2 o,
        CameraDB.zipcode o, CameraDB.speed_limit o, CameraDB.direction o with
  | Some s1, Some s2, Some z, Some n, Some d => Some (Columns.mk s1 s2 z n d)
  | _, _, _, _, _ => None
  end.

(** The key an INTEGER PRIMARY KEY column gets on insert: one more than
    the largest key in the table, 1 in an empty table. *)
Definition next_rowid (db : Table) : Z :=
  match map fst (map_to_list db) with
  | [] => 1
  | k :: ks => fold_right Z.max k ks + 1
  end.

(** [db.add(o); db.commit(); db.refresh(o)] for a pending object: the row
    is inserted under a new key and read back, or the table refuses it and
    stays as it was. *)
Definition commit_insert (o : CameraDB.t) (db : Table) : outcome Camera.t * Table :=
  match not_null o with
  | None => (Raise IntegrityError, db)
  | Some cols =>
      let i := next_rowid db in
      (Return (Camera.mk i cols), <[i := cols]> db)
  end.

(** [db.commit(); db.refresh(o)] for a modified object read from row [i]. *)
Definition commit_update (i : Z) (o : CameraDB.t) (db : Table) : outcome Camera.t * Table :=
  match not_null o with
  | None => (Raise IntegrityError, db)
  | Some cols => (Return (Camera.mk i cols), <[i := cols]> db)
  end.

(** [camera.model_dump(exclude_unset=True).items()]: the fields the
    request supplied, in declaration order, [None] values included. *)
Definition dump_field {A} (mk_item : option A -> item) (p : provided A) : list item :=
  match p with
  | Unset => []
  | Given v => [mk_item v]
  end.

Definition model_dump_exclude_unset (camera : CameraUpdate.t) : list item :=
  dump_field item_cross_street_1 (CameraUpdate.cross_street_1 camera) ++
  dump_field item_cross_street_2 (CameraUpdate.cross_street_2 camera) ++
  dump_field item_zipcode (CameraUpdate.zipcode camera) ++
  dump_field item_speed_limit (CameraUpdate.speed_limit camera) ++
  dump_field item_direction (CameraUpdate.direction camera).

(** What the loop over [update_data.items()] leaves in an attribute: the
    supplied value, [None] included, or the old one. *)
Definition assigned {A} (p : provided A) (old : option A) : option A :=
  match p with
  | Unset => old
  | Given v => v
  end.

(** ** The handlers *)

Definition invalid_zipcode : exn :=
  HTTPException 400 (lit "Invalid zipcode format. Must be 5 digits.").

Definition not_found : exn := HTTPException 404 (lit "Camera not found").

(** [get_cameras_by_zipcode] *)
Definition get_cameras_by_zipcode (zipcode : str) (db : Table) : outcome (list Camera.t) :=
  if negb (isdigit zipcode) || negb (len zipcode =? 5) then
    Raise invalid_zipcode
  else
    let cameras :=
      all (List.filter (fun r => str_eqb (Camera.zipcode r) zipcode) (query db)) in
    Return cameras.

(** [search_cameras_by_street].  The two [Query(...)] declarations are
    checked by the framework before the body runs.  The engine tests the
    two [ilike] on the rows of the zipcode only, so a pattern it refuses
    ends the query when there is such a row. *)
Definition search_cameras_by_street (street zipcode : str) (db : Table)
  : outcome (list Camera.t) :=
  if negb (1 <=? len street) || negb (match_5_digits zipcode) then
    Raise RequestValidationError
  else if negb (isdigit zipcode) || negb (len zipcode =? 5) then
    Raise invalid_zipcode
  else
    match
      filter_where
        (fun r => or_where (ilike (Camera.cross_street_1 r) (wrap_percent street))
                           (ilike (Camera.cross_street_2 r) (wrap_percent street)))
        (List.filter (fun r => str_eqb (Camera.zipcode r) zipcode) (query db))
    with
    | Raise e => Raise e
    | Return rows => let cameras := all rows in Return cameras
    end.

(** The criteria of the duplicate query of [create_camera]. *)
Definition same_intersection (camera : CameraCreate) (r : Camera.t) : bool :=
  str_eqb (Camera.cross_street_1 r) (Columns.cross_street_1 camera) &&
  str_eqb (Camera.cross_street_2 r) (Columns.cross_street_2 camera) &&
  str_eqb (Camera.zipcode r) (Columns.zipcode camera).

Definition already_exists (camera : CameraCreate) : exn :=
  HTTPException 400
    (lit "Camera already exists at " ++ Columns.cross_street_1 camera ++
     lit " and " ++ Columns.cross_street_2 camera ++
     lit " in zipcode " ++ Columns.zipcode camera).

(** [create_camera] *)
Definition create_camera (camera : CameraCreate) (db : Table) : outcome Camera.t * Table :=
  let existing := first (List.filter (same_intersection camera) (query db)) in
  match existing with
  | Some _ => (Raise (already_exists camera), db)
  | None =>
      let db_camera := CameraDB_of_model camera in
      commit_insert db_camera db
  end.

(** An id that is no key of the table and does not fit the 64-bit INTEGER
    of the engine. *)
Definition missing (camera_id : Z) : exn :=
  if fits_int64 camera_id then not_found else OverflowError.

(** [db.query(CameraDB).filter(CameraDB.id == camera_id).first()].  The
    keys of the table are 64-bit integers, so an id outside that range is
    the key of no row; the driver cannot bind it to the statement, and the
    query raises [OverflowError] instead of returning no row. *)
Definition first_by_id (camera_id : Z) (db : Table) : outcome (option Camera.t) :=
  match first (List.filter (fun r => Camera.id r =? camera_id) (query db)) with
  | Some row => Return (Some row)
  | None => if fits_int64 camera_id then Return None else Raise OverflowError
  end.

(** [update_camera] *)
Definition update_camera (camera_id : Z) (camera : CameraUpdate.t) (db : Table)
  : outcome Camera.t * Table :=
  match first_by_id camera_id db with
  | Raise e => (Raise e, db)
  | Return None => (Raise not_found, db)
  | Return (Some row) =>
      let db_camera := CameraDB_of_row row in
      let update_data := model_dump_exclude_unset camera in
      let db_camera := fold_left setattr update_data db_camera in
      commit_update (Camera.id row) db_camera db
  end.

(** [delete_camera]; the value returned is the text under ["message"]. *)
Definition delete_camera (camera_id : Z) (db : Table) : outcome str * Table :=
  match first_by_id camera_id db with
  | Raise e => (Raise e, db)
  | Return None => (Raise not_found, db)
  | Return (Some row) =>
      (Return (lit "Camera deleted successfully"), delete (Camera.id row) db)
  end.

(** The request bodies are validated against their models before the
    handlers are called. *)
Definition post_cameras (body : CameraCreate) (db : Table) : outcome Camera.t * Table :=
  if CameraCreate_valid body then create_camera body db
  else (Raise RequestValidationError, db).

Definition put_cameras (camera_id : Z) (body : CameraUpdate.t) (db : Table)
  : outcome Camera.t * Table :=
  if CameraUpdate_valid body then update_camera camera_id body db
  else (Raise RequestValidationError, db).

(** ** Sample data *)

Definition sample_cameras : list Columns.t :=
  [ Columns.mk (lit "5th Ave") (lit "W 42nd St") (lit "10036") 25 (lit "N");
    Columns.mk (lit "Broadway") (lit "W 34th St") (lit "10001") 25 (lit "S");
    Columns.mk (lit "Park Ave") (lit "E 59th St") (lit "10022") 30 (lit "E");
    Columns.mk (lit "Madison Ave") (lit "E 72nd St") (lit "10021") 25 (lit "W");
    Columns.mk (lit "Wilshire Blvd") (lit "S Beverly Dr") (lit "90212") 35 (lit "W");
    Columns.mk (lit "Sunset Blvd") (lit "N Highland Ave") (lit "90028") 35 (lit "E");
    Columns.mk (lit "Michigan Ave") (lit "E Randolph St") (lit "60601") 30 (lit "N");
    Columns.mk (lit "State St") (lit "W Madison St") (lit "60602") 25 (lit "S");
    Columns.mk (lit "Market St") (lit "5th St") (lit "94103") 25 (lit "NE");
    Columns.mk (lit "Lombard St") (lit "Hyde St") (lit "94133") 15 (lit "E") ].

(** [db.add_all(sample_cameras); db.commit()] *)
Definition add_all (rows : list Columns.t) (db : Table) : Table :=
  fold_left (fun db cols => snd (commit_insert (CameraDB_of_model cols) db)) rows db.

(** [startup_event] *)
Definition startup_event (db : Table) : Table :=
  if (Z.of_nat (length (query db)) =? 0) then add_all sample_cameras db else db.

Definition seeded : Table := startup_event ∅.

(** ** Vocabulary of the specification *)

(** Exactly five ASCII digits, the format the specification gives a
    zipcode. *)
Definition five_ascii_digits (z : str) : bool :=
  (length z =? 5)%nat && forallb ascii_digit z.




(** What [ilike] compares for a street term and a column that holds
    [name]: the case-folded pattern and name, each up to its first NUL. *)
Definition matches_term (street name : str) : bool :=
  pattern_compare (until_nul (lower (wrap_percent street))) (lower (until_nul name)).

(** The streets of a stored row differ from those of a request in letter
    case only. *)
Definition differs_in_case_only (r : Camera.t) (camera : CameraCreate) : Prop :=
  lower (Camera.cross_street_1 r) = lower (Columns.cross_street_1 camera) /\
  lower (Camera.cross_street_2 r) = lower (Columns.cross_street_2 camera) /\
  (Camera.cross_street_1 r <> Columns.cross_street_1 camera \/
   Camera.cross_street_2 r <> Columns.cross_street_2 camera).

(** A field of a partial update carries no null: it is left out or given
    a value. *)
Definition no_null_field {A} (p : provided A) : bool :=
  match p with Given None => false | _ => true end.

Definition no_null (camera : CameraUpdate.t) : bool :=
  no_null_field (CameraUpdate.cross_street_1 camera) &&
  no_null_field (CameraUpdate.cross_street_2 camera) &&
  no_null_field (CameraUpdate.zipcode camera) &&
  no_null_field (CameraUpdate.speed_limit camera) &&
  no_null_field (CameraUpdate.direction camera).

(** The merged result of the specification: the old record with exactly
    the supplied fields replaced. *)
Definition merge_field {A} (p : provided A) (old : A) : A :=
  match p with Given (Some v) => v | _ => old end.

Definition merge (camera : CameraUpdate.t) (old : Columns.t) : Columns.t :=
  Columns.mk
    (merge_field (CameraUpdate.cross_street_1 camera) (Columns.cross_street_1 old))
    (merge_field (CameraUpdate.cross_street_2 camera) (Columns.cross_street_2 old))
    (merge_field (CameraUpdate.zipcode camera) (Columns.zipcode old))
    (merge_field (CameraUpdate.speed_limit camera) (Columns.speed_limit old))
    (merge_field (CameraUpdate.direction camera) (Columns.direction old)).

(** The request [camera] with the field [k] supplied as null, and the pair
    such a field dumps to. *)
Definition with_null (k : field) (camera : CameraUpdate.t) : CameraUpdate.t :=
  match k with
  | f_cross_street_1 =>
      CameraUpdate.mk (Given None) (CameraUpdate.cross_street_2 camera)
        (CameraUpdate.zipcode camera) (CameraUpdate.speed_limit camera)
        (CameraUpdate.direction camera)
  | f_cross_street_2 =>
      CameraUpdate.mk (CameraUpdate.cross_street_1 camera) (Given None)
        (CameraUpdate.zipcode camera) (CameraUpdate.speed_limit camera)
        (CameraUpdate.direction camera)
  | f_zipcode =>
      CameraUpdate.mk (CameraUpdate.cross_street_1 camera)
        (CameraUpdate.cross_street_2 camera) (Given None)
        (CameraUpdate.speed_limit camera) (CameraUpdate.direction camera)
  | f_speed_limit =>
      CameraUpdate.mk (CameraUpdate.cross_street_1 camera)
        (CameraUpdate.cross_street_2 camera) (CameraUpdate.zipcode camera)
        (Given None) (CameraUpdate.direction camera)
  | f_direction =>
      CameraUpdate.mk (CameraUpdate.cross_street_1 camera)
        (CameraUpdate.cross_street_2 camera) (CameraUpdate.zipcode camera)
        (CameraUpdate.speed_limit camera) (Given None)
  end.

Definition null_item (k : field) : item :=
  match k with
  | f_cross_street_1 => item_cross_street_1 None
  | f_cross_street_2 => item_cross_street_2 None
  | f_zipcode => item_zipcode None
  | f_speed_limit => item_speed_limit None
  | f_direction => item_direction None
  end.

(** ** Concrete tables and requests *)

(** The first sample camera as the seeded table stores it. *)
Definition camera_1 : Camera.t :=
  Camera.mk 1 (Columns.mk (lit "5th Ave") (lit "W 42nd St") (lit "10036") 25 (lit "N")).

(** The same intersection with its streets in the other order. *)
Definition swapped_1 : CameraCreate :=
  Columns.mk (lit "W 42nd St") (lit "5th Ave") (lit "10036") 25 (lit "N").

(** The example body of the specification. *)
Definition main_st : CameraCreate :=
  Columns.mk (lit "Main St") (lit "1st Ave") (lit "12345") 25 (lit "N").

(** The zipcode 12345 written with Arabic-Indic digits. *)
Definition arabic_indic_12345 : str := [1633; 1634; 1635; 1636; 1637]%N.

(** A table that holds the first sample camera alone, and a request for
    the same intersection in capital letters. *)
Definition one_camera : Table := {[ 1 := Camera.columns camera_1 ]}.

Definition capitals_1 : CameraCreate :=
  Columns.mk (lit "5TH AVE") (lit "W 42ND ST") (lit "10036") 25 (lit "N").

(** The seeded table after both orders of the two streets of the first
    sample camera are stored, and after the example body is. *)
Definition both_orders : Table := snd (create_camera swapped_1 seeded).

Definition with_main_st : Table := snd (create_camera main_st seeded).



Definition long_term : str := repeat 97%N (Z.to_nat 49999).

(** Partial updates that supply one field. *)
Definition only_speed_limit (v : option Z) : CameraUpdate.t :=
  CameraUpdate.mk Unset Unset Unset (Given v) Unset.

Definition only_direction (v : option str) : CameraUpdate.t :=
  CameraUpdate.mk Unset Unset Unset Unset (Given v).

(** ** Engine configuration *)

(** The value [os.getenv] falls back to. *)
Definition default_database_url : str := lit "sqlite:///./speed_cameras.db".

(** [s.replace(old, new, 1)]: the leftmost occurrence of [old] gives way
    to [new], the rest of [s] stays. *)
Fixpoint replace_first (s old new : str) {struct s} : str :=
  if startswith s old then new ++ skipn (length old) s
  else
    match s with
    | [] => []
    | c :: s' => c :: replace_first s' old new
    end.

(** [DATABASE_URL] once the module is loaded; [env] is the value of the
    environment variable of that name, if it is set. *)
Definition DATABASE_URL (env : option str) : str :=
  let url := match env with Some v => v | None => default_database_url end in
  if startswith url (lit "postgres://")
  then replace_first url (lit "postgres://") (lit "postgresql://")
  else url.

(** The [connect_args] handed to [create_engine]. *)
Definition connect_args (url : str) : list (str * bool) :=
  if startswith url (lit "sqlite") then [(lit "check_same_thread", false)] else [].

(** The widths [String(5)] and [String(2)] of the columns [zipcode] and
    [direction]. *)
Definition zipcode_width : Z := 5.
Definition direction_width : Z := 2.

(** ** Conditions on a whole table *)

(** Every stored row would pass the validation of a create request. *)
Definition table_valid (db : Table) : Prop :=
  map_Forall (fun _ c => CameraCreate_valid c = true) db.

(** No two stored rows have the same streets, in the same order, in the
    same zipcode. *)
Definition unique_intersections (db : Table) : Prop :=
  forall r1 r2,
    stored r1 db -> stored r2 db ->
    same_intersection (Camera.columns r1) r2 = true -> r1 = r2.

(** The same condition as a test on the rows of a query. *)
Definition unique_check (rows : list Camera.t) : bool :=
  forallb
    (fun r1 =>
       forallb
         (fun r2 =>
            negb (same_intersection (Camera.columns r1) r2) ||
            (Camera.id r1 =? Camera.id r2))
         rows)
    rows.

(** The update request that supplies every field of a create body, the
    one that supplies nothing, and the one that moves a camera to the
    intersection of [c]. *)
Definition update_of_create (c : CameraCreate) : CameraUpdate.t :=
  CameraUpdate.mk
    (Given (Some (Columns.cross_street_1 c)))
    (Given (Some (Columns.cross_street_2 c)))
    (Given (Some (Columns.zipcode c)))
    (Given (Some (Columns.speed_limit c)))
    (Given (Some (Columns.direction c))).

Definition nothing_supplied : CameraUpdate.t :=
  CameraUpdate.mk Unset Unset Unset Unset Unset.

Definition move_to (c : Columns.t) : CameraUpdate.t :=
  CameraUpdate.mk
    (Given (Some (Columns.cross_street_1 c)))
    (Given (Some (Columns.cross_street_2 c)))
    (Given (Some (Columns.zipcode c)))
    Unset Unset.

(** * Properties *)

(** ** Strings and patterns *)

Section Strings.

Lemma str_eqb_eq (s t : str) : str_eqb s t = true <-> s = t.
Proof. unfold str_eqb. apply bool_decide_eq_true. Qed.

Lemma startswith_spec (t s : str) :
  startswith t s = true <-> exists post, t = s ++ post.
Proof.
  revert t. induction s as [|c s IH]; intros t; simpl.
  - split; [intros _; now exists t | intros _; reflexivity].
  - destruct t as [|d t].
    + split; [discriminate | intros [post H]; discriminate].
    + rewrite andb_true_iff, N.eqb_eq, IH. split.
      * intros [-> [post ->]]. now exists post.
      * intros [post H]. injection H as -> ->. split; [reflexivity | now exists post].
Qed.






(** One step of [LIKE] on a leading [%]. *)
Lemma like_percent_step (p t : str) :
  pattern_compare (percent :: p) t =
  pattern_compare p t || match t with [] => false | _ :: t' => pattern_compare (percent :: p) t' end.
Proof. destruct t; reflexivity. Qed.

Lemma like_percent (p t : str) :
  pattern_compare (percent :: p) t = true <-> exists t1 t2, t = t1 ++ t2 /\ pattern_compare p t2 = true.
Proof.
  induction t as [|d t IH]; rewrite like_percent_step, orb_true_iff.
  - split.
    + intros [H | H]; [|discriminate]. now exists [], [].
    + intros [t1 [t2 [H1 H2]]]. left.
      symmetry in H1. apply app_eq_nil in H1 as [_ ->]. exact H2.
  - rewrite IH. split.
    + intros [H | [t1 [t2 [-> H]]]].
      * now exists [], (d :: t).
      * now exists (d :: t1), t2.
    + intros [[|e t1] [t2 [H1 H2]]].
      * left. simpl in H1. now rewrite H1.
      * right. injection H1 as -> ->. now exists t1, t2.
Qed.





Lemma lower_char_nul (c : N) : (lower_char c =? 0)%N = (c =? 0)%N.
Proof.
  unfold lower_char, in_range.
  destruct ((65 <=? c)%N && (c <=? 90)%N) eqn:E; [|reflexivity].
  apply andb_true_iff in E as [E1 E2]. apply N.leb_le in E1, E2.
  replace ((c + 32 =? 0)%N) with false by (symmetry; apply N.eqb_neq; lia).
  symmetry. apply N.eqb_neq. lia.
Qed.

Lemma until_nul_lower (s : str) : until_nul (lower s) = lower (until_nul s).
Proof.
  induction s as [|c s IH]; [reflexivity|]. simpl.
  rewrite lower_char_nul. destruct (c =? 0)%N; [reflexivity|]. simpl. now rewrite IH.
Qed.

Lemma nul_free_lower (s : str) : nul_free (lower s) = nul_free s.
Proof.
  induction s as [|c s IH]; [reflexivity|]. simpl. now rewrite lower_char_nul, IH.
Qed.

Lemma utf8_bytes_lower (c : N) : utf8_bytes (lower_char c) = utf8_bytes c.
Proof.
  unfold lower_char, in_range.
  destruct ((65 <=? c)%N && (c <=? 90)%N) eqn:E; [|reflexivity].
  apply andb_true_iff in E as [E1 E2]. apply N.leb_le in E1, E2.
  unfold utf8_bytes.
  replace ((c + 32 <? 128)%N) with true by (symmetry; apply N.ltb_lt; lia).
  replace ((c <? 128)%N) with true by (symmetry; apply N.ltb_lt; lia).
  reflexivity.
Qed.

Lemma utf8_length_lower (s : str) : utf8_length (lower s) = utf8_length s.
Proof.
  induction s as [|c s IH]; [reflexivity|]. simpl. now rewrite utf8_bytes_lower, IH.
Qed.

Lemma utf8_length_app (a b : str) : utf8_length (a ++ b) = utf8_length a + utf8_length b.
Proof. induction a as [|c a IH]; simpl; [reflexivity | rewrite IH; lia]. Qed.

Lemma utf8_length_wrap (street : str) :
  utf8_length (wrap_percent street) = utf8_length street + 2.
Proof.
  change (wrap_percent street) with ([37%N] ++ street ++ [37%N]).
  rewrite !utf8_length_app. change (utf8_length [37%N]) with 1. lia.
Qed.


(** Whether [ilike] gives up depends on the term alone. *)
Lemma ilike_unfold (column street : str) :
  ilike column (wrap_percent street) =
  if max_like_pattern_length <? utf8_length street + 2 then Raise OperationalError
  else Return (pattern_compare (until_nul (lower (wrap_percent street)))
                 (lower (until_nul column))).
Proof.
  unfold ilike, like.
  now rewrite utf8_length_lower, utf8_length_wrap, until_nul_lower, until_nul_lower.
Qed.


Lemma decimal_digit_is_digit (c : N) : decimal_digit c = true -> digit_char c = true.
Proof. intros H. unfold digit_char. now rewrite H. Qed.

Lemma len_5 (s : str) : (len s =? 5) = (length s =? 5)%nat.
Proof.
  unfold len. destruct (Nat.eqb_spec (length s) 5) as [E|E].
  - rewrite E. reflexivity.
  - apply Z.eqb_neq. lia.
Qed.

(** Whatever passes the pattern of the models passes the check the two
    read handlers make in their body. *)
Lemma match_5_digits_isdigit (z : str) :
  match_5_digits z = true -> isdigit z = true /\ (len z =? 5) = true.
Proof.
  unfold match_5_digits. rewrite andb_true_iff. intros [Hl Hd].
  split; [|now rewrite len_5].
  destruct z as [|c z]; [discriminate|].
  unfold isdigit. rewrite forallb_forall in *. intros x Hx.
  apply decimal_digit_is_digit. now apply Hd.
Qed.

End Strings.

(** ** Queries over the table *)

Section Queries.

Lemma first_filter_None {A} (f : A -> bool) (l : list A) :
  first (List.filter f l) = None <-> forall x, In x l -> f x = false.
Proof.
  unfold first. induction l as [|a l IH]; simpl.
  - split; [intros _ x [] | reflexivity].
  - destruct (f a) eqn:E; simpl.
    + split; [discriminate|]. intros H. specialize (H a (or_introl eq_refl)). congruence.
    + rewrite IH. split.
      * intros H x [<- | Hx]; [exact E | now apply H].
      * intros H x Hx. apply H. now right.
Qed.

Lemma first_filter_Some {A} (f : A -> bool) (l : list A) (x : A) :
  first (List.filter f l) = Some x -> In x l /\ f x = true.
Proof.
  unfold first. intros H. apply filter_In.
  destruct (List.filter f l) as [|y l'] eqn:E; [discriminate|].
  injection H as ->. now left.
Qed.

Lemma first_filter_is_Some {A} (f : A -> bool) (l : list A) (x : A) :
  In x l -> f x = true -> exists y, first (List.filter f l) = Some y.
Proof.
  intros Hin Hf. destruct (first (List.filter f l)) as [y|] eqn:E; [now exists y|].
  rewrite first_filter_None in E. rewrite (E x Hin) in Hf. discriminate.
Qed.

Lemma in_query (r : Camera.t) (db : Table) : In r (query db) <-> stored r db.
Proof.
  unfold query, stored. rewrite in_map_iff. split.
  - intros [[i c] [<- H]]. simpl.
    apply list_elem_of_In in H. now apply elem_of_map_to_list in H.
  - intros H. exists (Camera.id r, Camera.columns r). split; [now destruct r|].
    apply list_elem_of_In. now apply elem_of_map_to_list.
Qed.

Lemma stored_unique (r1 r2 : Camera.t) (db : Table) :
  stored r1 db -> stored r2 db -> Camera.id r1 = Camera.id r2 -> r1 = r2.
Proof.
  unfold stored. intros H1 H2 E. rewrite E in H1. rewrite H1 in H2.
  destruct r1, r2; simpl in *. congruence.
Qed.

(** The query by primary key is the lookup in the table. *)
Lemma first_by_id_lookup (i : Z) (db : Table) :
  first_by_id i db =
  match db !! i with
  | Some c => Return (Some (Camera.mk i c))
  | None => if fits_int64 i then Return None else Raise OverflowError
  end.
Proof.
  unfold first_by_id. destruct (db !! i) as [c|] eqn:E; simpl.
  - destruct (first_filter_is_Some (fun r => Camera.id r =? i) (query db) (Camera.mk i c))
      as [y Hy].
    + now apply in_query.
    + apply Z.eqb_refl.
    + rewrite Hy. do 2 f_equal.
      apply first_filter_Some in Hy as [Hin Hid].
      apply in_query in Hin. apply Z.eqb_eq in Hid.
      apply (stored_unique _ _ db); [exact Hin | exact E | exact Hid].
  - replace (first (List.filter (fun r => Camera.id r =? i) (query db)))
      with (@None Camera.t); [reflexivity|].
    symmetry. apply first_filter_None. intros r Hr. apply in_query in Hr.
    apply Z.eqb_neq. intros <-. unfold stored in Hr. congruence.
Qed.

(** On a table whose keys all fit, the order of the two tests in
    [first_by_id] is immaterial: the id is bound first, as the driver
    does, and the row looked up after. *)
Lemma first_by_id_binds_first (i : Z) (db : Table) :
  map_Forall (fun k _ => fits_int64 k = true) db ->
  first_by_id i db =
  if fits_int64 i then Return (Camera.mk i <$> db !! i) else Raise OverflowError.
Proof.
  intros Hk. rewrite first_by_id_lookup.
  destruct (db !! i) as [c|] eqn:E; simpl.
  - now rewrite (Hk i c E).
  - now destruct (fits_int64 i).
Qed.

Lemma fold_max_ge (k : Z) (ks : list Z) (x : Z) :
  In x (k :: ks) -> x <= fold_right Z.max k ks.
Proof.
  induction ks as [|a ks IH]; simpl.
  - intros [-> | []]. lia.
  - intros [-> | [-> | H]].
    + specialize (IH (or_introl eq_refl)). lia.
    + lia.
    + specialize (IH (or_intror H)). lia.
Qed.

(** Every key of the table lies below the key of the next insert. *)
Lemma next_rowid_above (db : Table) (i : Z) (c : Columns.t) :
  db !! i = Some c -> i < next_rowid db.
Proof.
  intros H. unfold next_rowid.
  assert (Hin : In i (map fst (map_to_list db))).
  { apply in_map_iff. exists (i, c). split; [reflexivity|].
    apply list_elem_of_In. now apply elem_of_map_to_list. }
  destruct (map fst (map_to_list db)) as [|k ks]; [destruct Hin|].
  pose proof (fold_max_ge k ks i Hin). lia.
Qed.

Lemma next_rowid_fresh (db : Table) : db !! next_rowid db = None.
Proof.
  destruct (db !! next_rowid db) as [c|] eqn:E; [|reflexivity].
  apply next_rowid_above in E. lia.
Qed.

End Queries.

(** ** Reading: list by zipcode and search *)

Section Reading.

Lemma NoDup_query (db : Table) : List.NoDup (query db).
Proof.
  unfold query. apply Injective_map_NoDup.
  - intros [i c] [j d] H. now injection H as -> ->.
  - apply NoDup_ListNoDup, NoDup_map_to_list.
Qed.

Lemma five_ascii_digits_match (z : str) :
  five_ascii_digits z = true -> match_5_digits z = true.
Proof.
  unfold five_ascii_digits, match_5_digits. rewrite !andb_true_iff.
  intros [Hl Hd]. split; [exact Hl|].
  rewrite forallb_forall in *. intros c Hc. specialize (Hd c Hc).
  apply existsb_exists. exists 48%N. split; [now left | exact Hd].
Qed.

Lemma filter_where_pure {A} (test : A -> outcome bool) (keep : A -> bool) (rows : list A) :
  (forall r, In r rows -> test r = Return (keep r)) ->
  filter_where test rows = Return (List.filter keep rows).
Proof.
  induction rows as [|r rows IH]; intros H; [reflexivity|].
  simpl. rewrite (H r (or_introl eq_refl)), IH by (intros x Hx; apply H; now right).
  now destruct (keep r).
Qed.

Lemma filter_where_raise {A} (test : A -> outcome bool) (e : exn) (rows : list A) :
  rows <> [] -> (forall r, In r rows -> test r = Raise e) ->
  filter_where test rows = Raise e.
Proof.
  destruct rows as [|r rows]; [congruence|]. intros _ H.
  simpl. now rewrite (H r (or_introl eq_refl)).
Qed.

Lemma filter_where_incl {A} (test : A -> outcome bool) (rows kept : list A) :
  filter_where test rows = Return kept -> forall r, In r kept -> In r rows.
Proof.
  revert kept. induction rows as [|x rows IH]; simpl; intros kept H r Hr.
  - injection H as <-. exact Hr.
  - destruct (test x) as [keep|e]; [|discriminate].
    destruct (filter_where test rows) as [kept'|e]; [|discriminate].
    injection H as <-. destruct keep.
    + destruct Hr as [-> | Hr]; [now left | right; now apply (IH kept')].
    + right. now apply (IH kept').
Qed.

Lemma filter_where_ext {A} (f g : A -> outcome bool) (rows : list A) :
  (forall r, f r = g r) -> filter_where f rows = filter_where g rows.
Proof.
  intros H. induction rows as [|r rows IH]; [reflexivity|].
  simpl. now rewrite H, IH.
Qed.

(** The body of a search once the declared parameters have let it
    through. *)
Lemma search_unfold (street zipcode : str) (db : Table) :
  street <> [] -> match_5_digits zipcode = true ->
  search_cameras_by_street street zipcode db =
  match
    filter_where
      (fun r => or_where (ilike (Camera.cross_street_1 r) (wrap_percent street))
                         (ilike (Camera.cross_street_2 r) (wrap_percent street)))
      (List.filter (fun r => str_eqb (Camera.zipcode r) zipcode) (query db))
  with
  | Raise e => Raise e
  | Return rows => Return rows
  end.
Proof.
  intros Hs Hz. unfold search_cameras_by_street, all.
  destruct (match_5_digits_isdigit zipcode Hz) as [Hd Hl].
  assert (Hlen : (1 <=? len street) = true).
  { apply Z.leb_le. unfold len. destruct street; [congruence | simpl; lia]. }
  now rewrite Hlen, Hz, Hd, Hl.
Qed.

(** Within the limit on patterns the two [ilike] are plain tests. *)
Lemma or_where_ilike (street : str) (r : Camera.t) :
  utf8_length street + 2 <= max_like_pattern_length ->
  or_where (ilike (Camera.cross_street_1 r) (wrap_percent street))
           (ilike (Camera.cross_street_2 r) (wrap_percent street))
  = Return (matches_term street (Camera.cross_street_1 r) ||
            matches_term street (Camera.cross_street_2 r)).
Proof.
  intros Hl. rewrite !ilike_unfold.
  replace (max_like_pattern_length <? utf8_length street + 2) with false
    by (symmetry; apply Z.ltb_ge; exact Hl).
  fold (matches_term street (Camera.cross_street_1 r)).
  fold (matches_term street (Camera.cross_street_2 r)).
  now destruct (matches_term street (Camera.cross_street_1 r)).
Qed.

Lemma search_returns (street zipcode : str) (db : Table) :
  street <> [] -> match_5_digits zipcode = true ->
  utf8_length street + 2 <= max_like_pattern_length ->
  search_cameras_by_street street zipcode db =
  Return
    (List.filter
       (fun r => matches_term street (Camera.cross_street_1 r) ||
                 matches_term street (Camera.cross_street_2 r))
       (List.filter (fun r => str_eqb (Camera.zipcode r) zipcode) (query db))).
Proof.
  intros Hs Hz Hl. rewrite (search_unfold street zipcode db Hs Hz).
  rewrite (filter_where_pure _
             (fun r => matches_term street (Camera.cross_street_1 r) ||
                       matches_term street (Camera.cross_street_2 r))).
  - reflexivity.
  - intros r _. now apply or_where_ilike.
Qed.


Lemma isdigit_all (z : str) (c : N) :
  isdigit z = true -> In c z -> digit_char c = true.
Proof.
  destruct z as [|d z]; [discriminate|].
  unfold isdigit. rewrite forallb_forall. auto.
Qed.

End Reading.

(** C6, as the code has it.  For every zipcode of five digits, the ASCII
    ones among them, list-by-zipcode returns each stored record whose
    zipcode equals it exactly once and no other record, the empty sequence
    when none matches, never an error.  A zipcode argument that has not
    exactly five characters, or has a character that is not a digit, is
    rejected with the 400 error whatever the table holds.  The digits are
    those of [str.isdigit], not the ASCII ones alone. *)
Theorem list_by_zipcode_exact (zipcode : str) (db : Table) :
  (five_ascii_digits zipcode = true -> isdigit zipcode = true /\ len zipcode = 5) /\
  (isdigit zipcode = true -> len zipcode = 5 ->
   exists cameras,
     get_cameras_by_zipcode zipcode db = Return cameras /\
     List.NoDup cameras /\
     (forall r, In r cameras <-> stored r db /\ Camera.zipcode r = zipcode) /\
     ((forall r, stored r db -> Camera.zipcode r <> zipcode) -> cameras = [])) /\
  (length zipcode <> 5%nat \/ (exists c, In c zipcode /\ digit_char c = false) ->
   forall db' : Table,
     get_cameras_by_zipcode zipcode db' =
     Raise (HTTPException 400 (lit "Invalid zipcode format. Must be 5 digits."))).
Proof.
  split; [|split].
  - intros H. apply five_ascii_digits_match, match_5_digits_isdigit in H as [H1 H2].
    split; [exact H1 | now apply Z.eqb_eq].
  - intros Hd Hl. unfold get_cameras_by_zipcode, all.
    rewrite Hd, Hl. simpl. eexists. split; [reflexivity|].
    split; [apply List.NoDup_filter, NoDup_query|].
    assert (Hin : forall r,
      In r (List.filter (fun r => str_eqb (Camera.zipcode r) zipcode) (query db)) <->
      stored r db /\ Camera.zipcode r = zipcode).
    { intros r. now rewrite filter_In, in_query, str_eqb_eq. }
    split; [exact Hin|].
    intros Hnone.
    destruct (List.filter _ (query db)) as [|r l] eqn:E; [reflexivity|].
    destruct (proj1 (Hin r) (or_introl eq_refl)) as [Hs Hz].
    now destruct (Hnone r Hs).
  - intros H db'. unfold get_cameras_by_zipcode.
    replace (negb (isdigit zipcode) || negb (len zipcode =? 5)) with true; [reflexivity|].
    symmetry. apply orb_true_iff.
    destruct H as [Hl | [c [Hc Hd]]].
    + right. apply negb_true_iff, Z.eqb_neq. unfold len. lia.
    + left. apply negb_true_iff. destruct (isdigit zipcode) eqn:E; [|reflexivity].
      rewrite (isdigit_all zipcode c E Hc) in Hd. discriminate.
Qed.

(** The theorem at the zipcode 10036 of the seeded table, and at the
    four-digit argument 1234. *)
Lemma list_by_zipcode_exact_witness :
  (exists cameras,
     get_cameras_by_zipcode (lit "10036") seeded = Return cameras /\
     List.NoDup cameras /\
     (forall r, In r cameras <-> stored r seeded /\ Camera.zipcode r = lit "10036") /\
     ((forall r, stored r seeded -> Camera.zipcode r <> lit "10036") -> cameras = [])) /\
  (forall db' : Table,
     get_cameras_by_zipcode (lit "1234") db' =
     Raise (HTTPException 400 (lit "Invalid zipcode format. Must be 5 digits."))).
Proof.
  split.
  - apply (proj1 (proj2 (list_by_zipcode_exact (lit "10036") seeded))); reflexivity.
  - apply (proj2 (proj2 (list_by_zipcode_exact (lit "1234") seeded))).
    left. vm_compute. lia.
Defined.

(** C6 as stated fails: the zipcode written with the Arabic-Indic digits
    one to five is not five ASCII digits, and list-by-zipcode answers it
    with the empty sequence instead of rejecting it. *)
Lemma list_by_zipcode_accepts_other_digits :
  five_ascii_digits arabic_indic_12345 = false /\
  get_cameras_by_zipcode arabic_indic_12345 seeded = Return [].
Proof. split; vm_compute; reflexivity. Qed.




(** ** Creating *)

Section Creating.

Lemma same_intersection_spec (camera : CameraCreate) (r : Camera.t) :
  same_intersection camera r = true <->
  Camera.cross_street_1 r = Columns.cross_street_1 camera /\
  Camera.cross_street_2 r = Columns.cross_street_2 camera /\
  Camera.zipcode r = Columns.zipcode camera.
Proof.
  unfold same_intersection. rewrite !andb_true_iff, !str_eqb_eq. tauto.
Qed.

Lemma not_null_of_model (camera : CameraCreate) :
  not_null (CameraDB_of_model camera) = Some camera.
Proof. now destruct camera. Qed.

(** With a duplicate in the table the handler raises and writes nothing. *)
Lemma create_camera_duplicate (camera : CameraCreate) (db : Table) (r : Camera.t) :
  stored r db -> same_intersection camera r = true ->
  create_camera camera db = (Raise (already_exists camera), db).
Proof.
  intros Hs Hm. unfold create_camera.
  destruct (first_filter_is_Some (same_intersection camera) (query db) r) as [y ->];
    [now apply in_query | exact Hm | reflexivity].
Qed.

(** Without one the row is inserted under the next key. *)
Lemma create_camera_new (camera : CameraCreate) (db : Table) :
  (forall r, stored r db -> same_intersection camera r = false) ->
  create_camera camera db =
  (Return (Camera.mk (next_rowid db) camera), <[next_rowid db := camera]> db).
Proof.
  intros Hnone. unfold create_camera.
  replace (first (List.filter (same_intersection camera) (query db))) with (@None Camera.t).
  - unfold commit_insert. now rewrite not_null_of_model.
  - symmetry. apply first_filter_None. intros r Hr. apply Hnone. now apply in_query.
Qed.

Lemma create_camera_cases (camera : CameraCreate) (db : Table) :
  (exists r, stored r db /\ same_intersection camera r = true) \/
  (forall r, stored r db -> same_intersection camera r = false).
Proof.
  destruct (first (List.filter (same_intersection camera) (query db))) as [r|] eqn:E.
  - left. exists r. apply first_filter_Some in E as [Hin Hm].
    split; [now apply in_query | exact Hm].
  - right. intros r Hr. rewrite first_filter_None in E. apply E. now apply in_query.
Qed.

Lemma stored_one_camera (r : Camera.t) : stored r one_camera -> r = camera_1.
Proof.
  unfold stored, one_camera. intros H.
  apply lookup_singleton_Some in H as [Hi Hc].
  destruct r as [i c]. simpl in *. now subst.
Qed.

End Creating.

(** C2.  In every state that holds a record with cross_street_1 = A,
    cross_street_2 = B and zipcode = Z, creating a camera with these three
    values fails with the 400 error "Camera already exists at A and B in
    zipcode Z", and the table is unchanged. *)
Theorem create_duplicate_conflict (camera : CameraCreate) (db : Table) (r : Camera.t) :
  stored r db ->
  Camera.cross_street_1 r = Columns.cross_street_1 camera ->
  Camera.cross_street_2 r = Columns.cross_street_2 camera ->
  Camera.zipcode r = Columns.zipcode camera ->
  create_camera camera db =
  (Raise (HTTPException 400
            (lit "Camera already exists at " ++ Columns.cross_street_1 camera ++
             lit " and " ++ Columns.cross_street_2 camera ++
             lit " in zipcode " ++ Columns.zipcode camera)),
   db).
Proof.
  intros Hs H1 H2 H3. apply (create_camera_duplicate camera db r Hs).
  now apply same_intersection_spec.
Qed.

(** Creating the first sample camera a second time in the seeded table. *)
Lemma create_duplicate_conflict_witness :
  create_camera (Camera.columns camera_1) seeded =
  (Raise (HTTPException 400
            (lit "Camera already exists at 5th Ave and W 42nd St in zipcode 10036")),
   seeded).
Proof.
  apply (create_duplicate_conflict (Camera.columns camera_1) seeded camera_1);
    reflexivity.
Defined.

(** C5.  Create reports a conflict exactly when some stored record has
    the same cross_street_1, the same cross_street_2 and the same zipcode,
    character for character; a request whose streets differ from those of
    every stored record in letter case only is created. *)
Theorem duplicate_check_case_sensitive (camera : CameraCreate) (db : Table) :
  (fst (create_camera camera db) = Raise (already_exists camera) <->
   exists r, stored r db /\
     Camera.cross_street_1 r = Columns.cross_street_1 camera /\
     Camera.cross_street_2 r = Columns.cross_street_2 camera /\
     Camera.zipcode r = Columns.zipcode camera) /\
  ((forall r, stored r db -> differs_in_case_only r camera) ->
   exists row db', create_camera camera db = (Return row, db')).
Proof.
  split.
  - split.
    + intros H. destruct (create_camera_cases camera db) as [[r [Hs Hm]] | Hnone].
      * exists r. split; [exact Hs | now apply same_intersection_spec].
      * rewrite (create_camera_new camera db Hnone) in H. discriminate.
    + intros [r [Hs Hm]]. apply same_intersection_spec in Hm.
      now rewrite (create_camera_duplicate camera db r Hs Hm).
  - intros Hcase. eexists _, _. apply create_camera_new.
    intros r Hs. destruct (Hcase r Hs) as [_ [_ Hne]].
    destruct (same_intersection camera r) eqn:E; [|reflexivity].
    apply same_intersection_spec in E as [E1 [E2 _]]. tauto.
Qed.

(** The intersection of the first sample camera in capital letters,
    created next to it. *)
Lemma duplicate_check_case_sensitive_witness :
  exists row db', create_camera capitals_1 one_camera = (Return row, db').
Proof.
  apply (proj2 (duplicate_check_case_sensitive capitals_1 one_camera)).
  intros r Hs. apply stored_one_camera in Hs as ->.
  split; [reflexivity | split; [reflexivity | left; discriminate]].
Defined.

(** C7.  A create that returns a record returns the input fields under a
    key no stored record had, and the query by that key then finds exactly
    the returned record; every create without a duplicate in the table
    returns. *)
Theorem create_get_round_trip (camera : CameraCreate) (db : Table) :
  ((forall r, stored r db -> same_intersection camera r = false) ->
   exists row db', create_camera camera db = (Return row, db')) /\
  (forall row db',
     create_camera camera db = (Return row, db') ->
     Camera.columns row = camera /\
     db !! Camera.id row = None /\
     first_by_id (Camera.id row) db' = Return (Some row)).
Proof.
  split.
  - intros Hnone. eexists _, _. now apply create_camera_new.
  - intros row db' H.
    destruct (create_camera_cases camera db) as [[r [Hs Hm]] | Hnone].
    + rewrite (create_camera_duplicate camera db r Hs Hm) in H. discriminate.
    + rewrite (create_camera_new camera db Hnone) in H.
      injection H as <- <-. simpl.
      split; [reflexivity|]. split; [apply next_rowid_fresh|].
      rewrite first_by_id_lookup, lookup_insert_eq. reflexivity.
Qed.

(** The example of the specification: Main St and 1st Ave in 12345 gets
    the key 11 in the seeded table and is found under it. *)
Lemma create_get_round_trip_witness :
  Camera.columns (Camera.mk 11 main_st) = main_st /\
  seeded !! 11 = None /\
  first_by_id 11 (<[11 := main_st]> seeded) = Return (Some (Camera.mk 11 main_st)).
Proof.
  apply (proj2 (create_get_round_trip main_st seeded)
           (Camera.mk 11 main_st) (<[11 := main_st]> seeded)).
  vm_compute. reflexivity.
Defined.

(** C10, as the code has it.  In every state that holds a record with
    cross_street_1 = A and cross_street_2 = B in zipcode Z and no record
    with cross_street_1 = B and cross_street_2 = A in zipcode Z, creating a
    camera with the streets in the order B, A in zipcode Z is no conflict:
    the new record is persisted under a key of its own, next to the old
    one. *)
Theorem swapped_streets_are_no_duplicate
    (camera : CameraCreate) (db : Table) (r : Camera.t) :
  stored r db ->
  Columns.cross_street_1 camera = Camera.cross_street_2 r ->
  Columns.cross_street_2 camera = Camera.cross_street_1 r ->
  Columns.zipcode camera = Camera.zipcode r ->
  (forall r', stored r' db ->
     ~ (Camera.cross_street_1 r' = Columns.cross_street_1 camera /\
        Camera.cross_street_2 r' = Columns.cross_street_2 camera /\
        Camera.zipcode r' = Columns.zipcode camera)) ->
  exists row db',
    create_camera camera db = (Return row, db') /\
    Camera.columns row = camera /\
    Camera.id row <> Camera.id r /\
    stored row db' /\ stored r db'.
Proof.
  intros Hs _ _ _ Hnone.
  assert (Hnew : forall r', stored r' db -> same_intersection camera r' = false).
  { intros r' Hs'. destruct (same_intersection camera r') eqn:E; [|reflexivity].
    apply same_intersection_spec in E. now destruct (Hnone r' Hs'). }
  eexists _, _. split; [now apply create_camera_new|].
  assert (Hid : next_rowid db <> Camera.id r).
  { intros E. pose proof (next_rowid_above db _ _ Hs). lia. }
  simpl. split; [reflexivity|]. split; [exact Hid|]. unfold stored. simpl. split.
  - apply lookup_insert_eq.
  - now rewrite lookup_insert_ne.
Qed.

(** W 42nd St and 5th Ave created next to 5th Ave and W 42nd St. *)
Lemma swapped_streets_are_no_duplicate_witness :
  exists row db',
    create_camera swapped_1 one_camera = (Return row, db') /\
    Camera.columns row = swapped_1 /\
    Camera.id row <> Camera.id camera_1 /\
    stored row db' /\ stored camera_1 db'.
Proof.
  apply (swapped_streets_are_no_duplicate swapped_1 one_camera camera_1);
    try reflexivity.
  intros r' Hs. apply stored_one_camera in Hs as ->.
  intros [H _]. discriminate H.
Defined.

(** C10 as stated fails: once both orders of the two streets are stored,
    the table still holds the record with the streets in the order A, B,
    and a request with the order B, A is reported as a conflict. *)
Lemma swapped_streets_conflict_when_stored :
  stored camera_1 both_orders /\
  Columns.cross_street_1 swapped_1 = Camera.cross_street_2 camera_1 /\
  Columns.cross_street_2 swapped_1 = Camera.cross_street_1 camera_1 /\
  Columns.zipcode swapped_1 = Camera.zipcode camera_1 /\
  create_camera swapped_1 both_orders =
  (Raise (HTTPException 400
            (lit "Camera already exists at W 42nd St and 5th Ave in zipcode 10036")),
   both_orders).
Proof.
  split; [|split; [|split; [|split]]]; vm_compute; reflexivity.
Qed.

(** ** Updating and deleting *)

Section Updating.

(** The loop of [update_camera] in closed form. *)
Lemma fold_setattr (camera : CameraUpdate.t) (o : CameraDB.t) :
  fold_left setattr (model_dump_exclude_unset camera) o =
  CameraDB.mk (CameraDB.id o)
    (assigned (CameraUpdate.cross_street_1 camera) (CameraDB.cross_street_1 o))
    (assigned (CameraUpdate.cross_street_2 camera) (CameraDB.cross_street_2 o))
    (assigned (CameraUpdate.zipcode camera) (CameraDB.zipcode o))
    (assigned (CameraUpdate.speed_limit camera) (CameraDB.speed_limit o))
    (assigned (CameraUpdate.direction camera) (CameraDB.direction o)).
Proof.
  destruct camera as [[|v1] [|v2] [|v3] [|v4] [|v5]], o; reflexivity.
Qed.

Lemma not_null_merge (i : Z) (camera : CameraUpdate.t) (old : Columns.t) :
  no_null camera = true ->
  not_null (fold_left setattr (model_dump_exclude_unset camera)
              (CameraDB_of_row (Camera.mk i old)))
  = Some (merge camera old).
Proof.
  rewrite fold_setattr.
  destruct camera as [[|[v1|]] [|[v2|]] [|[v3|]] [|[v4|]] [|[v5|]]], old;
    try discriminate; reflexivity.
Qed.

Lemma not_null_with_null (i : Z) (k : field) (camera : CameraUpdate.t) (old : Columns.t) :
  not_null (fold_left setattr (model_dump_exclude_unset (with_null k camera))
              (CameraDB_of_row (Camera.mk i old)))
  = None.
Proof.
  rewrite fold_setattr. unfold not_null.
  destruct k; simpl;
    repeat match goal with
           | |- context [match ?x with Some _ => _ | None => _ end] => destruct x
           end; reflexivity.
Qed.

Lemma update_camera_found (i : Z) (camera : CameraUpdate.t) (db : Table) (old : Columns.t) :
  db !! i = Some old ->
  update_camera i camera db =
  commit_update i
    (fold_left setattr (model_dump_exclude_unset camera) (CameraDB_of_row (Camera.mk i old)))
    db.
Proof. intros H. unfold update_camera. now rewrite first_by_id_lookup, H. Qed.

Lemma update_camera_missing (i : Z) (camera : CameraUpdate.t) (db : Table) :
  db !! i = None -> update_camera i camera db = (Raise (missing i), db).
Proof.
  intros H. unfold update_camera, missing. rewrite first_by_id_lookup, H.
  now destruct (fits_int64 i).
Qed.

Lemma with_null_valid (k : field) (camera : CameraUpdate.t) :
  CameraUpdate_valid camera = true -> CameraUpdate_valid (with_null k camera) = true.
Proof.
  unfold CameraUpdate_valid. intros H.
  apply andb_true_iff in H as [H H5]. apply andb_true_iff in H as [H H4].
  apply andb_true_iff in H as [H H3]. apply andb_true_iff in H as [H1 H2].
  destruct k; simpl; rewrite ?H1, ?H2, ?H3, ?H4, ?H5; reflexivity.
Qed.

Lemma with_null_dumped (k : field) (camera : CameraUpdate.t) :
  In (null_item k) (model_dump_exclude_unset (with_null k camera)).
Proof.
  unfold model_dump_exclude_unset.
  destruct k; simpl; rewrite ?in_app_iff; simpl; tauto.
Qed.

Lemma delete_camera_result (i : Z) (db : Table) :
  delete_camera i db =
  match db !! i with
  | Some _ => (Return (lit "Camera deleted successfully"), delete i db)
  | None => (Raise (missing i), db)
  end.
Proof.
  unfold delete_camera, missing. rewrite first_by_id_lookup.
  destruct (db !! i); [reflexivity | now destruct (fits_int64 i)].
Qed.

End Updating.

(** C3, as the code has it.  An update of an existing record that gives a
    value to some of the non-id fields and leaves the others out returns
    the old record with exactly the given fields replaced, stores it under
    the same id and touches no other record; an update of an id that does
    not exist and fits a 64-bit integer fails with the 404 error and
    changes nothing. *)
Theorem update_merges_given_fields
    (camera_id : Z) (camera : CameraUpdate.t) (db : Table) :
  (db !! camera_id = None ->
   fits_int64 camera_id = true ->
   update_camera camera_id camera db =
   (Raise (HTTPException 404 (lit "Camera not found")), db)) /\
  (forall old,
     db !! camera_id = Some old ->
     no_null camera = true ->
     update_camera camera_id camera db =
     (Return (Camera.mk camera_id (merge camera old)),
      <[camera_id := merge camera old]> db) /\
     (forall i, i <> camera_id ->
        (<[camera_id := merge camera old]> db) !! i = db !! i)) /\
  (forall (A : Type) (old : A), merge_field Unset old = old) /\
  (forall (A : Type) (v old : A), merge_field (Given (Some v)) old = v).
Proof.
  split; [|split; [|split]].
  - intros H Hf. rewrite (update_camera_missing _ _ _ H). unfold missing. now rewrite Hf.
  - intros old Hold Hnn. split.
    + rewrite (update_camera_found _ _ _ _ Hold). unfold commit_update.
      now rewrite not_null_merge.
    + intros i Hi. now apply lookup_insert_ne.
  - reflexivity.
  - reflexivity.
Qed.

(** The example of the specification: the speed limit of camera 11 set to
    30, and an update of a camera that is not there. *)
Lemma update_merges_given_fields_witness :
  update_camera 11 (only_speed_limit (Some 30)) with_main_st =
  (Return (Camera.mk 11
             (Columns.mk (lit "Main St") (lit "1st Ave") (lit "12345") 30 (lit "N"))),
   <[11 := Columns.mk (lit "Main St") (lit "1st Ave") (lit "12345") 30 (lit "N")]>
     with_main_st) /\
  update_camera 11 (only_speed_limit (Some 30)) seeded =
  (Raise (HTTPException 404 (lit "Camera not found")), seeded).
Proof.
  split.
  - apply (proj1 (proj2 (update_merges_given_fields
                           11 (only_speed_limit (Some 30)) with_main_st))
             main_st); reflexivity.
  - apply (proj1 (update_merges_given_fields 11 (only_speed_limit (Some 30)) seeded));
      reflexivity.
Defined.

(** C3 as stated fails, in two ways.  The request that supplies the
    direction alone, as null, for the stored camera 1 returns no record.
    The request for the id 2^63, which no record has, fails with an
    overflow error, not with not-found. *)
Lemma update_direction_null_returns_no_record :
  (stored camera_1 seeded /\
   model_dump_exclude_unset (only_direction None) = [item_direction None] /\
   update_camera 1 (only_direction None) seeded = (Raise IntegrityError, seeded)) /\
  (seeded !! (2 ^ 63) = None /\
   update_camera (2 ^ 63) (only_speed_limit (Some 30)) seeded =
   (Raise OverflowError, seeded)).
Proof.
  repeat match goal with |- _ /\ _ => split end; vm_compute; reflexivity.
Qed.

(** C9, as the code has it.  A valid update request stays valid when one
    of its fields is supplied as null, the null is among the changes the
    handler applies and is set on the session object, and the commit is
    then refused by the NOT NULL column: the request ends in an integrity
    error and the stored record is left as it was. *)
Theorem update_null_is_refused
    (camera_id : Z) (camera : CameraUpdate.t) (k : field) (db : Table)
    (old : Columns.t) :
  db !! camera_id = Some old ->
  CameraUpdate_valid camera = true ->
  CameraUpdate_valid (with_null k camera) = true /\
  In (null_item k) (model_dump_exclude_unset (with_null k camera)) /\
  attr_is_None
    (fold_left setattr (model_dump_exclude_unset (with_null k camera))
       (CameraDB_of_row (Camera.mk camera_id old))) k = true /\
  update_camera camera_id (with_null k camera) db = (Raise IntegrityError, db) /\
  put_cameras camera_id (with_null k camera) db = (Raise IntegrityError, db).
Proof.
  intros Hold Hv.
  pose proof (with_null_valid k camera Hv) as Hv'.
  assert (Hu : update_camera camera_id (with_null k camera) db = (Raise IntegrityError, db)).
  { rewrite (update_camera_found _ _ _ _ Hold). unfold commit_update.
    now rewrite not_null_with_null. }
  split; [exact Hv'|]. split; [apply with_null_dumped|]. split.
  - rewrite fold_setattr. destruct k; reflexivity.
  - split; [exact Hu|]. unfold put_cameras. now rewrite Hv'.
Qed.

(** The speed limit of the seeded camera 2 supplied as null. *)
Lemma update_null_is_refused_witness :
  CameraUpdate_valid (only_speed_limit None) = true /\
  In (item_speed_limit None) (model_dump_exclude_unset (only_speed_limit None)) /\
  attr_is_None
    (fold_left setattr (model_dump_exclude_unset (only_speed_limit None))
       (CameraDB_of_row
          (Camera.mk 2
             (Columns.mk (lit "Broadway") (lit "W 34th St") (lit "10001") 25 (lit "S")))))
    f_speed_limit = true /\
  update_camera 2 (only_speed_limit None) seeded = (Raise IntegrityError, seeded) /\
  put_cameras 2 (only_speed_limit None) seeded = (Raise IntegrityError, seeded).
Proof.
  apply (update_null_is_refused 2 (only_speed_limit (Some 30)) f_speed_limit seeded
           (Columns.mk (lit "Broadway") (lit "W 34th St") (lit "10001") 25 (lit "S")));
    reflexivity.
Defined.

(** C9 as stated fails: the request passes validation and its null is
    among the applied changes, yet no null is written; the update ends in
    an integrity error and camera 2 keeps its speed limit of 25. *)
Lemma update_speed_limit_null_not_written :
  CameraUpdate_valid (only_speed_limit None) = true /\
  In (item_speed_limit None) (model_dump_exclude_unset (only_speed_limit None)) /\
  put_cameras 2 (only_speed_limit None) seeded = (Raise IntegrityError, seeded) /\
  Columns.speed_limit <$> seeded !! 2 = Some 25.
Proof.
  split; [|split; [|split]]; try (vm_compute; reflexivity).
  now left.
Qed.

(** C8, as the code has it.  Deleting an id that is not in the table and
    fits a 64-bit integer fails with the 404 error and leaves the table
    unchanged; deleting an id that is in the table returns the
    confirmation, removes that record and no other, and the query by that
    id then finds no record. *)
Theorem delete_removes_exactly_one (camera_id : Z) (db : Table) :
  (db !! camera_id = None ->
   fits_int64 camera_id = true ->
   delete_camera camera_id db =
   (Raise (HTTPException 404 (lit "Camera not found")), db)) /\
  (forall old,
     db !! camera_id = Some old ->
     exists db',
       delete_camera camera_id db = (Return (lit "Camera deleted successfully"), db') /\
       (forall r, first_by_id camera_id db' <> Return (Some r)) /\
       (fits_int64 camera_id = true -> first_by_id camera_id db' = Return None) /\
       db' !! camera_id = None /\
       forall i, i <> camera_id -> db' !! i = db !! i).
Proof.
  rewrite delete_camera_result. split.
  - intros -> Hf. unfold missing. now rewrite Hf.
  - intros old ->. eexists. split; [reflexivity|].
    rewrite first_by_id_lookup, lookup_delete_eq.
    split; [now destruct (fits_int64 camera_id)|].
    split; [now intros ->|]. split; [reflexivity|].
    intros i Hi. now apply lookup_delete_ne.
Qed.

(** Deleting camera 11 where it is stored and where it is not. *)
Lemma delete_removes_exactly_one_witness :
  (exists db',
     delete_camera 11 with_main_st = (Return (lit "Camera deleted successfully"), db') /\
     (forall r, first_by_id 11 db' <> Return (Some r)) /\
     (fits_int64 11 = true -> first_by_id 11 db' = Return None) /\
     db' !! 11 = None /\
     forall i, i <> 11 -> db' !! i = with_main_st !! i) /\
  delete_camera 11 seeded = (Raise (HTTPException 404 (lit "Camera not found")), seeded).
Proof.
  split.
  - apply (proj2 (delete_removes_exactly_one 11 with_main_st) main_st). reflexivity.
  - apply (proj1 (delete_removes_exactly_one 11 seeded)); reflexivity.
Defined.

(** C8 as stated fails: no record has the id 2^63, and deleting it ends in
    an overflow error, not in not-found. *)
Lemma delete_of_unbindable_id_overflows :
  seeded !! (2 ^ 63) = None /\
  delete_camera (2 ^ 63) seeded = (Raise OverflowError, seeded).
Proof. split; vm_compute; reflexivity. Qed.

(** ** Validation of a create request *)

Section Validation.

Lemma street_ok_spec (s : str) : street_ok s = true <-> 1 <= len s <= 100.
Proof. unfold street_ok. rewrite andb_true_iff, !Z.leb_le. tauto. Qed.

Lemma speed_limit_ok_spec (n : Z) : speed_limit_ok n = true <-> 5 <= n <= 85.
Proof. unfold speed_limit_ok. rewrite andb_true_iff, !Z.leb_le. tauto. Qed.

Lemma match_5_digits_spec (z : str) :
  match_5_digits z = true <->
  length z = 5%nat /\ forall c, In c z -> decimal_digit c = true.
Proof.
  unfold match_5_digits. now rewrite andb_true_iff, Nat.eqb_eq, forallb_forall.
Qed.

Lemma validate_direction_spec (d : str) :
  returned (validate_direction d) = true <-> In d valid_directions.
Proof.
  unfold validate_direction.
  destruct (existsb (str_eqb d) valid_directions) eqn:E; simpl.
  - split; [intros _ | reflexivity].
    apply existsb_exists in E as [x [Hx Hd]]. apply str_eqb_eq in Hd. now subst.
  - split; [discriminate|]. intros Hin.
    assert (existsb (str_eqb d) valid_directions = true) as E'.
    { apply existsb_exists. exists d. split; [exact Hin | now apply str_eqb_eq]. }
    congruence.
Qed.

End Validation.

(** C4, as the code has it.  Validation on create accepts a body exactly
    when both streets have 1 to 100 characters, the zipcode has exactly 5
    characters, each a decimal digit, the speed limit lies in [5, 85] and
    the direction is one of N, S, E, W, NE, NW, SE, SW.  So the speed
    limits 5 and 85 are accepted and 4 and 86 rejected, the zipcode "1234"
    is rejected, the direction "NNE" is rejected with the message that
    names the allowed values, and every zipcode of 5 ASCII digits passes.
    The decimal digits are those of every script, not the ASCII ones
    alone. *)
Theorem create_field_validation :
  (forall c : CameraCreate,
     CameraCreate_valid c = true <->
     1 <= len (Columns.cross_street_1 c) <= 100 /\
     1 <= len (Columns.cross_street_2 c) <= 100 /\
     (length (Columns.zipcode c) = 5%nat /\
      forall ch, In ch (Columns.zipcode c) -> decimal_digit ch = true) /\
     5 <= Columns.speed_limit c <= 85 /\
     In (Columns.direction c) valid_directions) /\
  (forall z, five_ascii_digits z = true -> match_5_digits z = true) /\
  CameraCreate_valid
    (Columns.mk (lit "Main St") (lit "1st Ave") (lit "12345") 5 (lit "N")) = true /\
  CameraCreate_valid
    (Columns.mk (lit "Main St") (lit "1st Ave") (lit "12345") 85 (lit "N")) = true /\
  (forall c : CameraCreate,
     Columns.speed_limit c = 4 \/ Columns.speed_limit c = 86 ->
     CameraCreate_valid c = false) /\
  (forall c : CameraCreate,
     Columns.zipcode c = lit "1234" -> CameraCreate_valid c = false) /\
  (forall c : CameraCreate,
     Columns.direction c = lit "NNE" -> CameraCreate_valid c = false) /\
  validate_direction (lit "NNE") =
  Raise (ValueError
           (lit "Direction must be one of ['N', 'S', 'E', 'W', 'NE', 'NW', 'SE', 'SW']")).
Proof.
  assert (Hiff : forall c : CameraCreate,
     CameraCreate_valid c = true <->
     1 <= len (Columns.cross_street_1 c) <= 100 /\
     1 <= len (Columns.cross_street_2 c) <= 100 /\
     (length (Columns.zipcode c) = 5%nat /\
      forall ch, In ch (Columns.zipcode c) -> decimal_digit ch = true) /\
     5 <= Columns.speed_limit c <= 85 /\
     In (Columns.direction c) valid_directions).
  { intros c. unfold CameraCreate_valid.
    rewrite !andb_true_iff, !street_ok_spec, match_5_digits_spec,
      speed_limit_ok_spec, validate_direction_spec. tauto. }
  assert (Hnot : forall c : CameraCreate,
     ~ (5 <= Columns.speed_limit c <= 85 /\
        length (Columns.zipcode c) = 5%nat /\
        In (Columns.direction c) valid_directions) ->
     CameraCreate_valid c = false).
  { intros c Hn. destruct (CameraCreate_valid c) eqn:E; [|reflexivity].
    apply Hiff in E. tauto. }
  split; [exact Hiff|]. split; [exact five_ascii_digits_match|].
  split; [reflexivity|]. split; [reflexivity|].
  split; [|split; [|split]].
  - intros c Hc. apply Hnot. lia.
  - intros c Hc. apply Hnot. rewrite Hc. intros [_ [H _]]. discriminate H.
  - intros c Hc. apply Hnot. rewrite Hc. intros [_ [_ H]].
    apply validate_direction_spec in H. discriminate H.
  - reflexivity.
Qed.

(** The example body of the specification with the speed limit 4, with
    the zipcode "1234" and with the direction "NNE". *)
Lemma create_field_validation_witness :
  CameraCreate_valid
    (Columns.mk (lit "Main St") (lit "1st Ave") (lit "12345") 4 (lit "N")) = false /\
  CameraCreate_valid
    (Columns.mk (lit "Main St") (lit "1st Ave") (lit "12345") 86 (lit "N")) = false /\
  CameraCreate_valid
    (Columns.mk (lit "Main St") (lit "1st Ave") (lit "1234") 25 (lit "N")) = false /\
  CameraCreate_valid
    (Columns.mk (lit "Main St") (lit "1st Ave") (lit "12345") 25 (lit "NNE")) = false /\
  match_5_digits (lit "12345") = true.
Proof.
  destruct create_field_validation as [_ [Hz [_ [_ [Hs [Hzip [Hdir _]]]]]]].
  split; [apply Hs; left; reflexivity|].
  split; [apply Hs; right; reflexivity|].
  split; [apply Hzip; reflexivity|].
  split; [apply Hdir; reflexivity|].
  apply Hz. reflexivity.
Defined.

(** C4 as stated fails in its rule for the zipcode: the body with the
    zipcode written in Arabic-Indic digits passes validation, and that
    zipcode is not five ASCII digits. *)
Lemma create_accepts_other_digits :
  CameraCreate_valid
    (Columns.mk (lit "Main St") (lit "1st Ave") arabic_indic_12345 25 (lit "N")) = true /\
  five_ascii_digits arabic_indic_12345 = false.
Proof. split; vm_compute; reflexivity. Qed.

(** * Further properties of the module *)

(** ** The database URL *)

Section Url.

Lemma startswith_app (p rest : str) : startswith (p ++ rest) p = true.
Proof. apply startswith_spec. now exists rest. Qed.

Lemma replace_first_prefix (p new rest : str) :
  replace_first (p ++ rest) p new = new ++ rest.
Proof.
  destruct (p ++ rest) as [|c s] eqn:E; simpl.
  - destruct p; [|discriminate]. simpl in E. subst. reflexivity.
  - rewrite <- E, startswith_app, E.
    replace (skipn (length p) (c :: s)) with rest; [reflexivity|].
    rewrite <- E. clear E. induction p; simpl; auto.
Qed.

End Url.

(** X1.  A database URL that starts with "postgres://" is used with the
    scheme "postgresql://" and the rest of it untouched, whatever the rest
    holds, and gets no SQLite connection arguments; every other URL is used
    as it is. *)
Theorem database_url_scheme_rewritten :
  (forall rest : str,
     DATABASE_URL (Some (lit "postgres://" ++ rest)) = lit "postgresql://" ++ rest /\
     connect_args (DATABASE_URL (Some (lit "postgres://" ++ rest))) = []) /\
  (forall url : str,
     startswith url (lit "postgres://") = false -> DATABASE_URL (Some url) = url).
Proof.
  split.
  - intros rest.
    assert (E : DATABASE_URL (Some (lit "postgres://" ++ rest)) = lit "postgresql://" ++ rest).
    { unfold DATABASE_URL. rewrite startswith_app. apply replace_first_prefix. }
    split; [exact E | rewrite E; reflexivity].
  - intros url H. unfold DATABASE_URL. now rewrite H.
Qed.

(** A SQLite URL is left alone. *)
Lemma database_url_scheme_rewritten_witness :
  DATABASE_URL (Some (lit "sqlite:///./other.db")) = lit "sqlite:///./other.db".
Proof.
  apply (proj2 database_url_scheme_rewritten (lit "sqlite:///./other.db")).
  reflexivity.
Defined.

(** X2.  The URL the module ends up with never starts with "postgres://",
    and handing it back as the environment value gives the same URL
    again. *)
Theorem database_url_stable (env : option str) :
  startswith (DATABASE_URL env) (lit "postgres://") = false /\
  DATABASE_URL (Some (DATABASE_URL env)) = DATABASE_URL env.
Proof.
  assert (H : startswith (DATABASE_URL env) (lit "postgres://") = false).
  { unfold DATABASE_URL.
    set (url := match env with Some v => v | None => default_database_url end).
    destruct (startswith url (lit "postgres://")) eqn:E; [|exact E].
    apply startswith_spec in E as [rest ->].
    rewrite replace_first_prefix. reflexivity. }
  split; [exact H|].
  unfold DATABASE_URL at 1. now rewrite H.
Qed.

(** ** More on reading *)

Section Searching.

Lemma search_refused (street zipcode : str) (db : Table) :
  street = [] \/ match_5_digits zipcode = false ->
  search_cameras_by_street street zipcode db = Raise RequestValidationError.
Proof.
  intros H. unfold search_cameras_by_street.
  replace (negb (1 <=? len street) || negb (match_5_digits zipcode)) with true;
    [reflexivity|].
  symmetry. apply orb_true_iff. destruct H as [-> | ->]; [left | right]; reflexivity.
Qed.

Lemma listing_returns (zipcode : str) (db : Table) :
  match_5_digits zipcode = true ->
  get_cameras_by_zipcode zipcode db =
  Return (List.filter (fun r => str_eqb (Camera.zipcode r) zipcode) (query db)).
Proof.
  intros Hz. unfold get_cameras_by_zipcode, all.
  destruct (match_5_digits_isdigit zipcode Hz) as [Hd Hl].
  now rewrite Hd, Hl.
Qed.

Lemma filter_all {A} (f : A -> bool) (l : list A) :
  (forall x, f x = true) -> List.filter f l = l.
Proof.
  intros H. induction l as [|a l IH]; [reflexivity|].
  simpl. now rewrite H, IH.
Qed.

Lemma lower_wrap_percent (street : str) :
  lower (wrap_percent street) = percent :: lower street ++ [percent].
Proof. unfold wrap_percent, lower. simpl. now rewrite map_app. Qed.

(** A pattern matches the text it is spelled with, wildcards and all. *)
Lemma like_itself (s q t : str) :
  pattern_compare q t = true -> pattern_compare (s ++ q) (s ++ t) = true.
Proof.
  intros H. induction s as [|c s IH]; [exact H|].
  destruct (N.eqb_spec c percent) as [-> | Hne].
  - apply like_percent. now exists [percent], (s ++ t).
  - simpl. apply N.eqb_neq in Hne. rewrite Hne, N.eqb_refl, orb_true_r. exact IH.
Qed.

Lemma until_nul_app (a b : str) :
  until_nul (a ++ b) = until_nul a ++ (if nul_free a then until_nul b else []).
Proof.
  induction a as [|c a IH]; simpl; [reflexivity|].
  destruct (c =? 0)%N; simpl; [reflexivity | now rewrite IH].
Qed.

Lemma matches_own_name (name : str) : matches_term name name = true.
Proof.
  unfold matches_term. rewrite until_nul_lower.
  change (wrap_percent name) with ([percent] ++ name ++ [percent]).
  rewrite !until_nul_app. cbn [until_nul nul_free forallb N.eqb percent negb app andb].
  unfold lower. rewrite map_cons, map_app. fold (lower (until_nul name)).
  apply like_percent. exists [], (lower (until_nul name)). split; [reflexivity|].
  rewrite <- (app_nil_r (lower (until_nul name))) at 2. apply like_itself.
  now destruct (nul_free name).
Qed.

Lemma matches_percent (name : str) : matches_term (lit "%") name = true.
Proof.
  unfold matches_term. apply like_percent. exists (lower (until_nul name)), [].
  split; [now rewrite app_nil_r | reflexivity].
Qed.

Lemma utf8_length_pos (s : str) : 0 <= utf8_length s.
Proof.
  induction s as [|c s IH]; simpl; [lia|].
  unfold utf8_bytes. destruct (c <? 128)%N, (c <? 2048)%N, (c <? 65536)%N; lia.
Qed.

Lemma search_gives_up (street zipcode : str) (db : Table) (r : Camera.t) :
  street <> [] -> match_5_digits zipcode = true ->
  max_like_pattern_length < utf8_length street + 2 ->
  stored r db -> Camera.zipcode r = zipcode ->
  search_cameras_by_street street zipcode db = Raise OperationalError.
Proof.
  intros Hs Hz Hl Hr Hzip. rewrite (search_unfold street zipcode db Hs Hz).
  rewrite (filter_where_raise _ OperationalError); [reflexivity | |].
  - intros E.
    assert (Hin : In r (List.filter (fun r => str_eqb (Camera.zipcode r) zipcode) (query db))).
    { apply filter_In. split; [now apply in_query | now apply str_eqb_eq]. }
    rewrite E in Hin. destruct Hin.
  - intros x _. rewrite !ilike_unfold.
    now replace (max_like_pattern_length <? utf8_length street + 2) with true
      by (symmetry; apply Z.ltb_lt; exact Hl).
Qed.

Lemma search_no_rows (street zipcode : str) (db : Table) :
  street <> [] -> match_5_digits zipcode = true ->
  (forall r, stored r db -> Camera.zipcode r <> zipcode) ->
  search_cameras_by_street street zipcode db = Return [].
Proof.
  intros Hs Hz Hnone. rewrite (search_unfold street zipcode db Hs Hz).
  replace (List.filter (fun r => str_eqb (Camera.zipcode r) zipcode) (query db))
    with (@nil Camera.t); [reflexivity|].
  symmetry. destruct (List.filter _ (query db)) as [|r l] eqn:E; [reflexivity|].
  assert (Hin : In r (List.filter (fun r => str_eqb (Camera.zipcode r) zipcode) (query db)))
    by (rewrite E; now left).
  apply filter_In in Hin as [Hq Hzip].
  apply in_query in Hq. apply str_eqb_eq in Hzip. now destruct (Hnone r Hq).
Qed.

End Searching.

(** X3.  A search has three outcomes.  With an empty street term or a
    zipcode that does not match the declared pattern it is refused by the
    declared parameters.  Otherwise it returns a sequence when the pattern
    built from the term has at most 50000 bytes, and also when no stored
    record has the zipcode; when the pattern is longer and some stored
    record has the zipcode it ends in an operational error. *)
Theorem search_has_three_outcomes (street zipcode : str) (db : Table) :
  (street = [] \/ match_5_digits zipcode = false ->
   search_cameras_by_street street zipcode db = Raise RequestValidationError) /\
  (street <> [] -> match_5_digits zipcode = true ->
   utf8_length street + 2 <= 50000 ->
   exists cameras, search_cameras_by_street street zipcode db = Return cameras) /\
  (street <> [] -> match_5_digits zipcode = true ->
   (forall r, stored r db -> Camera.zipcode r <> zipcode) ->
   search_cameras_by_street street zipcode db = Return []) /\
  (street <> [] -> match_5_digits zipcode = true ->
   50000 < utf8_length street + 2 ->
   forall r, stored r db -> Camera.zipcode r = zipcode ->
   search_cameras_by_street street zipcode db = Raise OperationalError).
Proof.
  split; [apply search_refused|]. split; [|split].
  - intros Hs Hz Hl. eexists. now apply search_returns.
  - apply search_no_rows.
  - intros Hs Hz Hl r Hr Hzip. now apply (search_gives_up street zipcode db r).
Qed.

(** A search with a four-digit zipcode, one that returns, and the term of
    49999 letters a in a zipcode without cameras and in one with a
    camera. *)
Lemma search_has_three_outcomes_witness :
  search_cameras_by_street (lit "Ave") (lit "1234") seeded = Raise RequestValidationError /\
  (exists cameras, search_cameras_by_street (lit "Ave") (lit "10036") seeded = Return cameras) /\
  search_cameras_by_street long_term (lit "10036") ∅ = Return [] /\
  search_cameras_by_street long_term (lit "10036") seeded = Raise OperationalError.
Proof.
  split; [|split; [|split]].
  - apply (proj1 (search_has_three_outcomes (lit "Ave") (lit "1234") seeded)).
    right. reflexivity.
  - apply (proj1 (proj2 (search_has_three_outcomes (lit "Ave") (lit "10036") seeded)));
      [discriminate | reflexivity | now vm_compute].
  - apply (proj1 (proj2 (proj2 (search_has_three_outcomes long_term (lit "10036") ∅))));
      [discriminate | reflexivity |].
    intros r Hr. unfold stored in Hr. rewrite lookup_empty in Hr. discriminate.
  - apply (proj2 (proj2 (proj2 (search_has_three_outcomes long_term (lit "10036") seeded)))
             ltac:(discriminate) eq_refl ltac:(now vm_compute) camera_1);
      reflexivity.
Defined.

(** X4.  Whatever a search returns is part of what list-by-zipcode
    returns for the same zipcode: list-by-zipcode returns too, and every
    record of the search is in its sequence. *)
Theorem search_within_listing (street zipcode : str) (db : Table) (cameras : list Camera.t) :
  search_cameras_by_street street zipcode db = Return cameras ->
  exists listed,
    get_cameras_by_zipcode zipcode db = Return listed /\
    forall r, In r cameras -> In r listed.
Proof.
  intros H. destruct street as [|c street].
  - rewrite search_refused in H; [discriminate | now left].
  - destruct (match_5_digits zipcode) eqn:Hz.
    + rewrite search_unfold in H; [|discriminate | exact Hz].
      eexists. split; [now apply listing_returns|].
      destruct (filter_where _ _) as [rows|e] eqn:E; [|discriminate].
      injection H as <-. exact (filter_where_incl _ _ _ E).
    + rewrite search_refused in H; [discriminate | now right].
Qed.

(** The search for "St" in the zipcode 10036 of the seeded table. *)
Lemma search_within_listing_witness :
  exists listed,
    get_cameras_by_zipcode (lit "10036") seeded = Return listed /\
    forall r, In r [camera_1] -> In r listed.
Proof.
  apply (search_within_listing (lit "St") (lit "10036") seeded [camera_1]).
  vm_compute. reflexivity.
Defined.

(** X5.  The street term "%" selects nothing: for every zipcode that
    matches the declared pattern the search returns exactly what
    list-by-zipcode returns. *)
Theorem search_percent_is_listing (zipcode : str) (db : Table) :
  match_5_digits zipcode = true ->
  search_cameras_by_street (lit "%") zipcode db = get_cameras_by_zipcode zipcode db.
Proof.
  intros Hz.
  rewrite search_returns, listing_returns;
    [|exact Hz | discriminate | exact Hz | now vm_compute].
  f_equal. apply filter_all. intros r. now rewrite matches_percent.
Qed.

Lemma search_percent_is_listing_witness :
  search_cameras_by_street (lit "%") (lit "60601") seeded =
  get_cameras_by_zipcode (lit "60601") seeded.
Proof. apply (search_percent_is_listing (lit "60601") seeded). reflexivity. Defined.

(** X6.  The letter case of the street term is immaterial: two terms that
    agree up to the case of the letters A to Z give the same outcome, for
    every zipcode and table, wildcards or not. *)
Theorem search_ignores_case_of_term (street1 street2 zipcode : str) (db : Table) :
  lower street1 = lower street2 ->
  search_cameras_by_street street1 zipcode db =
  search_cameras_by_street street2 zipcode db.
Proof.
  intros H.
  assert (Hi : forall column,
    ilike column (wrap_percent street1) = ilike column (wrap_percent street2)).
  { intros column. unfold ilike. now rewrite !lower_wrap_percent, H. }
  assert (Hl : len street1 = len street2).
  { unfold len. f_equal.
    rewrite <- (length_map lower_char street1), <- (length_map lower_char street2).
    unfold lower in H. now rewrite H. }
  unfold search_cameras_by_street. rewrite Hl.
  destruct (negb (1 <=? len street2) || negb (match_5_digits zipcode)); [reflexivity|].
  destruct (negb (isdigit zipcode) || negb (len zipcode =? 5)); [reflexivity|].
  rewrite (filter_where_ext
             (fun r => or_where (ilike (Camera.cross_street_1 r) (wrap_percent street1))
                                (ilike (Camera.cross_street_2 r) (wrap_percent street1)))
             (fun r => or_where (ilike (Camera.cross_street_1 r) (wrap_percent street2))
                                (ilike (Camera.cross_street_2 r) (wrap_percent street2))));
    [reflexivity|].
  intros r. now rewrite !Hi.
Qed.

Lemma search_ignores_case_of_term_witness :
  search_cameras_by_street (lit "5TH ave") (lit "10036") seeded =
  search_cameras_by_street (lit "5th Ave") (lit "10036") seeded.
Proof.
  apply (search_ignores_case_of_term (lit "5TH ave") (lit "5th Ave") (lit "10036") seeded).
  reflexivity.
Defined.

(** X7.  Every stored camera is found under its own street names: if its
    zipcode matches the declared pattern, the search for its
    cross_street_1, if that is not empty and has at most 49998 bytes in
    UTF-8, as every name of 1 to 100 characters has, returns it, and so
    does the search for its cross_street_2, whatever characters the names
    hold. *)
Theorem search_finds_own_streets (r : Camera.t) (db : Table) :
  stored r db ->
  match_5_digits (Camera.zipcode r) = true ->
  (Camera.cross_street_1 r <> [] ->
   utf8_length (Camera.cross_street_1 r) <= 49998 ->
   exists cameras,
     search_cameras_by_street (Camera.cross_street_1 r) (Camera.zipcode r) db
     = Return cameras /\ In r cameras) /\
  (Camera.cross_street_2 r <> [] ->
   utf8_length (Camera.cross_street_2 r) <= 49998 ->
   exists cameras,
     search_cameras_by_street (Camera.cross_street_2 r) (Camera.zipcode r) db
     = Return cameras /\ In r cameras) /\
  (forall s, street_ok s = true -> s <> [] /\ utf8_length s <= 49998).
Proof.
  intros Hs Hz.
  assert (Hzip : In r (List.filter (fun r' => str_eqb (Camera.zipcode r') (Camera.zipcode r))
                         (query db))).
  { apply filter_In. split; [now apply in_query | now apply str_eqb_eq]. }
  split; [|split].
  - intros Hne Hl. eexists. split.
    + apply search_returns; [exact Hne | exact Hz | unfold max_like_pattern_length; lia].
    + apply filter_In. split; [exact Hzip|]. now rewrite matches_own_name.
  - intros Hne Hl. eexists. split.
    + apply search_returns; [exact Hne | exact Hz | unfold max_like_pattern_length; lia].
    + apply filter_In. split; [exact Hzip|]. rewrite matches_own_name. apply orb_true_r.
  - intros s Hok. apply street_ok_spec in Hok. split.
    + intros ->. unfold len in Hok. simpl in Hok. lia.
    + assert (H4 : utf8_length s <= 4 * len s).
      { clear Hok. unfold len. induction s as [|c s IH]; simpl; [lia|].
        unfold utf8_bytes.
        destruct (c <? 128)%N, (c <? 2048)%N, (c <? 65536)%N; lia. }
      lia.
Qed.

Lemma search_finds_own_streets_witness :
  (exists cameras,
     search_cameras_by_street (lit "5th Ave") (lit "10036") seeded = Return cameras /\
     In camera_1 cameras) /\
  (exists cameras,
     search_cameras_by_street (lit "W 42nd St") (lit "10036") seeded = Return cameras /\
     In camera_1 cameras).
Proof.
  destruct (search_finds_own_streets camera_1 seeded) as [H1 [H2 _]];
    [reflexivity | reflexivity |].
  split; [apply H1 | apply H2]; try discriminate; now vm_compute.
Defined.

(** X8.  The query by primary key finds at most one row, the stored row
    with that key: it returns a record exactly when that record is stored
    and has the key asked for. *)
Theorem query_by_id_is_lookup (camera_id : Z) (db : Table) (r : Camera.t) :
  first_by_id camera_id db = Return (Some r) <-> stored r db /\ Camera.id r = camera_id.
Proof.
  rewrite first_by_id_lookup. unfold stored. split.
  - destruct (db !! camera_id) as [c|] eqn:E.
    + intros H. injection H as <-. now split.
    + destruct (fits_int64 camera_id); discriminate.
  - intros [Hs <-]. rewrite Hs. now destruct r.
Qed.

(** ** More on writing *)

Section Writing.

Lemma not_null_null (i : Z) (camera : CameraUpdate.t) (old : Columns.t) :
  no_null camera = false ->
  not_null (fold_left setattr (model_dump_exclude_unset camera)
              (CameraDB_of_row (Camera.mk i old)))
  = None.
Proof.
  rewrite fold_setattr.
  destruct camera as [[|[v1|]] [|[v2|]] [|[v3|]] [|[v4|]] [|[v5|]]], old;
    try discriminate; reflexivity.
Qed.

(** The two ways an update of a stored row ends. *)
Lemma update_camera_result (i : Z) (camera : CameraUpdate.t) (db : Table) (old : Columns.t) :
  db !! i = Some old ->
  update_camera i camera db =
  if no_null camera
  then (Return (Camera.mk i (merge camera old)), <[i := merge camera old]> db)
  else (Raise IntegrityError, db).
Proof.
  intros H. rewrite (update_camera_found _ _ _ _ H). unfold commit_update.
  destruct (no_null camera) eqn:E.
  - now rewrite not_null_merge.
  - now rewrite not_null_null.
Qed.

Lemma optional_ok_merge {A} (ok : A -> bool) (p : provided A) (old : A) :
  optional_ok ok p = true -> ok old = true -> ok (merge_field p old) = true.
Proof. destruct p as [|[v|]]; simpl; auto. Qed.

Lemma validate_direction_optional_Some (d : str) :
  returned (validate_direction_optional (Some d)) = returned (validate_direction d).
Proof.
  unfold validate_direction_optional, validate_direction.
  now destruct (negb (existsb (str_eqb d) valid_directions)).
Qed.

Lemma merge_valid (camera : CameraUpdate.t) (old : Columns.t) :
  CameraUpdate_valid camera = true ->
  CameraCreate_valid old = true ->
  CameraCreate_valid (merge camera old) = true.
Proof.
  unfold CameraUpdate_valid, CameraCreate_valid, merge. simpl.
  intros Hu Ho.
  apply andb_true_iff in Hu as [Hu H5]. apply andb_true_iff in Hu as [Hu H4].
  apply andb_true_iff in Hu as [Hu H3]. apply andb_true_iff in Hu as [H1 H2].
  apply andb_true_iff in Ho as [Ho O5]. apply andb_true_iff in Ho as [Ho O4].
  apply andb_true_iff in Ho as [Ho O3]. apply andb_true_iff in Ho as [O1 O2].
  rewrite (optional_ok_merge _ _ _ H1 O1), (optional_ok_merge _ _ _ H2 O2),
    (optional_ok_merge _ _ _ H3 O3), (optional_ok_merge _ _ _ H4 O4).
  simpl. destruct (CameraUpdate.direction camera) as [|[d|]];
    unfold merge_field; try exact O5.
  rewrite <- validate_direction_optional_Some. exact H5.
Qed.

Lemma commit_insert_of_model (c : Columns.t) (db : Table) :
  commit_insert (CameraDB_of_model c) db =
  (Return (Camera.mk (next_rowid db) c), <[next_rowid db := c]> db).
Proof. unfold commit_insert. now rewrite not_null_of_model. Qed.

Lemma add_all_valid (rows : list Columns.t) (db : Table) :
  forallb CameraCreate_valid rows = true -> table_valid db -> table_valid (add_all rows db).
Proof.
  unfold add_all. revert db. induction rows as [|c rows IH]; intros db Hr Hdb; [exact Hdb|].
  simpl in Hr. apply andb_true_iff in Hr as [Hc Hr].
  cbn [fold_left]. apply IH; [exact Hr|].
  rewrite commit_insert_of_model. cbn [snd].
  now apply map_Forall_insert_2.
Qed.

Lemma query_empty (db : Table) : query db = [] <-> db = ∅.
Proof.
  unfold query. rewrite <- map_to_list_empty_iff.
  destruct (map_to_list db); simpl; split; congruence.
Qed.

Lemma length_query (db : Table) : length (query db) = size db.
Proof. unfold query. rewrite length_map. apply length_map_to_list. Qed.

End Writing.

(** X9.  A table in which every row would pass the validation of a create
    request stays such a table under every request: create and update
    through their validated bodies, delete, and the seeding at startup.
    The empty table is one, so every table the service reaches from it
    is. *)
Theorem stored_rows_stay_valid (db : Table) :
  table_valid db ->
  table_valid (startup_event db) /\
  (forall body, table_valid (snd (post_cameras body db))) /\
  (forall camera_id body, table_valid (snd (put_cameras camera_id body db))) /\
  (forall camera_id, table_valid (snd (delete_camera camera_id db))).
Proof.
  intros Hdb. split; [|split; [|split]].
  - unfold startup_event. destruct (Z.of_nat (length (query db)) =? 0); [|exact Hdb].
    now apply add_all_valid.
  - intros body. unfold post_cameras.
    destruct (CameraCreate_valid body) eqn:Hv; [|exact Hdb].
    destruct (create_camera_cases body db) as [[r [Hs Hm]] | Hnone].
    + now rewrite (create_camera_duplicate body db r Hs Hm).
    + rewrite (create_camera_new body db Hnone). simpl.
      now apply map_Forall_insert_2.
  - intros i body. unfold put_cameras.
    destruct (CameraUpdate_valid body) eqn:Hv; [|exact Hdb].
    destruct (db !! i) as [old|] eqn:E.
    + rewrite (update_camera_result i body db old E).
      destruct (no_null body); [|exact Hdb]. simpl.
      apply map_Forall_insert_2; [|exact Hdb].
      apply merge_valid; [exact Hv|]. exact (Hdb i old E).
    + now rewrite (update_camera_missing i body db E).
  - intros i. rewrite delete_camera_result.
    destruct (db !! i); [|exact Hdb]. simpl. now apply map_Forall_delete.
Qed.

(** From the empty table. *)
Lemma stored_rows_stay_valid_witness :
  table_valid seeded /\
  table_valid (snd (post_cameras main_st ∅)).
Proof.
  destruct (stored_rows_stay_valid ∅) as [H1 [H2 _]]; [apply map_Forall_empty|].
  split; [exact H1 | exact (H2 main_st)].
Defined.

(** X10.  A body that passes the validation of a create request fits the
    columns it is stored in: its zipcode has exactly the width of the
    zipcode column and its direction at most the width of the direction
    column. *)
Theorem valid_body_fits_columns (body : CameraCreate) :
  CameraCreate_valid body = true ->
  len (Columns.zipcode body) = zipcode_width /\
  1 <= len (Columns.direction body) <= direction_width.
Proof.
  unfold CameraCreate_valid. intros H.
  apply andb_true_iff in H as [H H5]. apply andb_true_iff in H as [H _].
  apply andb_true_iff in H as [_ H3].
  split.
  - apply match_5_digits_isdigit in H3 as [_ H3]. now apply Z.eqb_eq in H3.
  - apply validate_direction_spec in H5. unfold valid_directions in H5. simpl in H5.
    unfold direction_width.
    repeat (destruct H5 as [<- | H5]; [vm_compute; split; discriminate|]).
    destruct H5.
Qed.

Lemma valid_body_fits_columns_witness :
  len (Columns.zipcode main_st) = zipcode_width /\
  1 <= len (Columns.direction main_st) <= direction_width.
Proof. apply (valid_body_fits_columns main_st). reflexivity. Defined.

(** X11.  A request that ends in an exception leaves the table exactly as
    it was, for create, update and delete and for the validated forms of
    create and update. *)
Theorem failed_request_changes_nothing (db : Table) :
  (forall camera e,
     fst (create_camera camera db) = Raise e -> snd (create_camera camera db) = db) /\
  (forall camera_id camera e,
     fst (update_camera camera_id camera db) = Raise e ->
     snd (update_camera camera_id camera db) = db) /\
  (forall camera_id e,
     fst (delete_camera camera_id db) = Raise e -> snd (delete_camera camera_id db) = db) /\
  (forall body e,
     fst (post_cameras body db) = Raise e -> snd (post_cameras body db) = db) /\
  (forall camera_id body e,
     fst (put_cameras camera_id body db) = Raise e ->
     snd (put_cameras camera_id body db) = db).
Proof.
  assert (Hc : forall camera e,
     fst (create_camera camera db) = Raise e -> snd (create_camera camera db) = db).
  { intros camera e.
    destruct (create_camera_cases camera db) as [[r [Hs Hm]] | Hnone].
    - now rewrite (create_camera_duplicate camera db r Hs Hm).
    - rewrite (create_camera_new camera db Hnone). discriminate. }
  assert (Hu : forall camera_id camera e,
     fst (update_camera camera_id camera db) = Raise e ->
     snd (update_camera camera_id camera db) = db).
  { intros i camera e. destruct (db !! i) as [old|] eqn:E.
    - rewrite (update_camera_result i camera db old E).
      destruct (no_null camera); [discriminate | reflexivity].
    - now rewrite (update_camera_missing i camera db E). }
  split; [exact Hc|]. split; [exact Hu|]. split; [|split].
  - intros i e. rewrite delete_camera_result. destruct (db !! i); [discriminate | reflexivity].
  - intros body e. unfold post_cameras.
    destruct (CameraCreate_valid body); [apply Hc | reflexivity].
  - intros i body e. unfold put_cameras.
    destruct (CameraUpdate_valid body); [apply Hu | reflexivity].
Qed.

Lemma failed_request_changes_nothing_witness :
  snd (delete_camera 99 seeded) = seeded.
Proof.
  apply (proj1 (proj2 (proj2 (failed_request_changes_nothing seeded))) 99 not_found).
  reflexivity.
Defined.

(** X12.  An update of a stored record has exactly two outcomes: if one of
    the supplied fields is null it ends in an integrity error, and
    otherwise it returns the merged record, valid or not in the eyes of
    the request model. *)
Theorem update_fails_exactly_on_null
    (camera_id : Z) (camera : CameraUpdate.t) (db : Table) (old : Columns.t) :
  db !! camera_id = Some old ->
  (no_null camera = false <->
   fst (update_camera camera_id camera db) = Raise IntegrityError) /\
  (no_null camera = true <->
   fst (update_camera camera_id camera db) = Return (Camera.mk camera_id (merge camera old))).
Proof.
  intros H. rewrite (update_camera_result camera_id camera db old H).
  destruct (no_null camera); simpl; split; split; congruence.
Qed.

Lemma update_fails_exactly_on_null_witness :
  (no_null (only_direction None) = false <->
   fst (update_camera 3 (only_direction None) seeded) = Raise IntegrityError) /\
  (no_null (only_direction None) = true <->
   fst (update_camera 3 (only_direction None) seeded) =
   Return (Camera.mk 3
             (merge (only_direction None)
                (Columns.mk (lit "Park Ave") (lit "E 59th St") (lit "10022") 30 (lit "E"))))).
Proof.
  apply (update_fails_exactly_on_null 3 (only_direction None) seeded
           (Columns.mk (lit "Park Ave") (lit "E 59th St") (lit "10022") 30 (lit "E"))).
  reflexivity.
Defined.

Section Intersections.

Lemma same_intersection_sym (r1 r2 : Camera.t) :
  same_intersection (Camera.columns r1) r2 = true ->
  same_intersection (Camera.columns r2) r1 = true.
Proof.
  rewrite !same_intersection_spec. unfold Camera.cross_street_1,
    Camera.cross_street_2, Camera.zipcode. intuition congruence.
Qed.

Lemma same_intersection_refl (c : Columns.t) (i : Z) :
  same_intersection c (Camera.mk i c) = true.
Proof. apply same_intersection_spec. now repeat split. Qed.

Lemma stored_insert (r : Camera.t) (i : Z) (c : Columns.t) (db : Table) :
  stored r (<[i := c]> db) ->
  r = Camera.mk i c \/ (Camera.id r <> i /\ stored r db).
Proof.
  unfold stored. destruct r as [j d]. simpl.
  destruct (Z.eq_dec j i) as [-> | Hne].
  - rewrite lookup_insert_eq. intros H. left. congruence.
  - rewrite lookup_insert_ne by congruence. now right.
Qed.

Lemma stored_delete (r : Camera.t) (i : Z) (db : Table) :
  stored r (delete i db) -> stored r db.
Proof. unfold stored. intros H. now apply lookup_delete_Some in H as [_ H]. Qed.

Lemma merge_move_to (c old : Columns.t) (i : Z) :
  same_intersection c (Camera.mk i (merge (move_to c) old)) = true.
Proof. apply same_intersection_spec. now repeat split. Qed.

Lemma unique_check_sound (db : Table) :
  unique_check (query db) = true -> unique_intersections db.
Proof.
  unfold unique_check. rewrite forallb_forall. intros H r1 r2 H1 H2 Hsame.
  specialize (H r1 (proj2 (in_query r1 db) H1)). rewrite forallb_forall in H.
  specialize (H r2 (proj2 (in_query r2 db) H2)).
  rewrite Hsame in H. simpl in H. apply Z.eqb_eq in H.
  now apply (stored_unique r1 r2 db).
Qed.

Lemma move_to_valid (c : Columns.t) :
  CameraCreate_valid c = true -> CameraUpdate_valid (move_to c) = true.
Proof.
  unfold CameraCreate_valid, CameraUpdate_valid, move_to. simpl. intros H.
  apply andb_true_iff in H as [H _]. apply andb_true_iff in H as [H _].
  rewrite H. reflexivity.
Qed.

End Intersections.

(** X13.  Create and delete keep the intersections of a table distinct:
    if no two stored records have the same streets in the same order in
    the same zipcode, none have after a create, whatever its outcome, nor
    after a delete. *)
Theorem create_and_delete_keep_intersections_unique (db : Table) :
  unique_intersections db ->
  (forall camera, unique_intersections (snd (create_camera camera db))) /\
  (forall camera_id, unique_intersections (snd (delete_camera camera_id db))).
Proof.
  intros Hu. split.
  - intros camera.
    destruct (create_camera_cases camera db) as [[r [Hs Hm]] | Hnone].
    + now rewrite (create_camera_duplicate camera db r Hs Hm).
    + rewrite (create_camera_new camera db Hnone). simpl.
      intros r1 r2 H1 H2 Hsame.
      apply stored_insert in H1 as [-> | [_ H1]];
        apply stored_insert in H2 as [-> | [_ H2]].
      * reflexivity.
      * simpl in Hsame. rewrite (Hnone r2 H2) in Hsame. discriminate.
      * apply same_intersection_sym in Hsame. simpl in Hsame.
        rewrite (Hnone r1 H1) in Hsame. discriminate.
      * now apply Hu.
  - intros i. rewrite delete_camera_result. destruct (db !! i); [|exact Hu].
    simpl. intros r1 r2 H1 H2. apply Hu; now apply (stored_delete _ i).
Qed.

(** In the seeded table: a create that inserts, a create that meets its
    duplicate, and a delete that removes a row. *)
Lemma create_and_delete_keep_intersections_unique_witness :
  (fst (create_camera main_st seeded) = Return (Camera.mk 11 main_st) /\
   unique_intersections (snd (create_camera main_st seeded))) /\
  (fst (create_camera (Camera.columns camera_1) seeded) =
   Raise (already_exists (Camera.columns camera_1)) /\
   unique_intersections (snd (create_camera (Camera.columns camera_1) seeded))) /\
  (fst (delete_camera 1 seeded) = Return (lit "Camera deleted successfully") /\
   unique_intersections (snd (delete_camera 1 seeded))).
Proof.
  assert (H : unique_intersections seeded)
    by (apply unique_check_sound; vm_compute; reflexivity).
  split; [|split]; (split; [vm_compute; reflexivity|]).
  - apply (proj1 (create_and_delete_keep_intersections_unique seeded H) main_st).
  - apply (proj1 (create_and_delete_keep_intersections_unique seeded H)
             (Camera.columns camera_1)).
  - apply (proj2 (create_and_delete_keep_intersections_unique seeded H) 1).
Defined.

(** X14.  Update makes no duplicate check: a stored record can be moved
    onto the streets and zipcode of any other stored record.  The update
    returns, both records stay stored, and the table then has two records
    for one intersection; when the other record is valid the validated
    form of the request passes as well. *)
Theorem update_can_duplicate_an_intersection
    (db : Table) (i j : Z) (ci cj : Columns.t) :
  i <> j ->
  db !! i = Some ci ->
  db !! j = Some cj ->
  exists row db',
    update_camera i (move_to cj) db = (Return row, db') /\
    Camera.id row = i /\
    same_intersection cj row = true /\
    stored row db' /\
    db' !! j = Some cj /\
    ~ unique_intersections db' /\
    (CameraCreate_valid cj = true ->
     put_cameras i (move_to cj) db = (Return row, db')).
Proof.
  intros Hij Hi Hj.
  assert (E : update_camera i (move_to cj) db =
              (Return (Camera.mk i (merge (move_to cj) ci)),
               <[i := merge (move_to cj) ci]> db)).
  { now rewrite (update_camera_result i (move_to cj) db ci Hi). }
  eexists _, _. split; [exact E|].
  assert (Hrow : stored (Camera.mk i (merge (move_to cj) ci))
                   (<[i := merge (move_to cj) ci]> db)).
  { unfold stored. simpl. apply lookup_insert_eq. }
  assert (Hother : (<[i := merge (move_to cj) ci]> db) !! j = Some cj).
  { now rewrite lookup_insert_ne. }
  split; [reflexivity|]. split; [apply merge_move_to|].
  split; [exact Hrow|]. split; [exact Hother|]. split.
  - intros Hu.
    specialize (Hu (Camera.mk j cj) (Camera.mk i (merge (move_to cj) ci)) Hother Hrow
                  (merge_move_to cj ci i)).
    injection Hu as Hji _. congruence.
  - intros Hv. unfold put_cameras. now rewrite (move_to_valid cj Hv).
Qed.

(** Camera 2 of the seeded table moved onto the intersection of
    camera 1. *)
Lemma update_can_duplicate_an_intersection_witness :
  exists row db',
    update_camera 2 (move_to (Camera.columns camera_1)) seeded = (Return row, db') /\
    Camera.id row = 2 /\
    same_intersection (Camera.columns camera_1) row = true /\
    stored row db' /\
    db' !! 1 = Some (Camera.columns camera_1) /\
    ~ unique_intersections db' /\
    (CameraCreate_valid (Camera.columns camera_1) = true ->
     put_cameras 2 (move_to (Camera.columns camera_1)) seeded = (Return row, db')).
Proof.
  apply (update_can_duplicate_an_intersection seeded 2 1
           (Columns.mk (lit "Broadway") (lit "W 34th St") (lit "10001") 25 (lit "S"))
           (Camera.columns camera_1)).
  - lia.
  - reflexivity.
  - reflexivity.
Defined.

(** X15.  Deleting the record a create has just returned undoes the
    create: the delete succeeds and the table is the one before the
    create. *)
Theorem delete_undoes_create
    (camera : CameraCreate) (db db' : Table) (row : Camera.t) :
  create_camera camera db = (Return row, db') ->
  delete_camera (Camera.id row) db' = (Return (lit "Camera deleted successfully"), db).
Proof.
  intros H.
  destruct (create_camera_cases camera db) as [[r [Hs Hm]] | Hnone].
  - rewrite (create_camera_duplicate camera db r Hs Hm) in H. discriminate.
  - rewrite (create_camera_new camera db Hnone) in H. injection H as <- <-. simpl.
    rewrite delete_camera_result, lookup_insert_eq, delete_insert_eq.
    now rewrite (delete_id db _ (next_rowid_fresh db)).
Qed.

Lemma delete_undoes_create_witness :
  delete_camera 11 (<[11 := main_st]> seeded) =
  (Return (lit "Camera deleted successfully"), seeded).
Proof.
  apply (delete_undoes_create main_st seeded (<[11 := main_st]> seeded)
           (Camera.mk 11 main_st)).
  vm_compute. reflexivity.
Defined.

(** X16.  A created record is listed at once: if the zipcode of the body
    matches the declared pattern, list-by-zipcode for that zipcode on the
    table after the create returns a sequence that contains the returned
    record. *)
Theorem created_camera_is_listed
    (camera : CameraCreate) (db db' : Table) (row : Camera.t) :
  create_camera camera db = (Return row, db') ->
  match_5_digits (Columns.zipcode camera) = true ->
  exists listed,
    get_cameras_by_zipcode (Columns.zipcode camera) db' = Return listed /\
    In row listed.
Proof.
  intros H Hz.
  destruct (create_camera_cases camera db) as [[r [Hs Hm]] | Hnone].
  - rewrite (create_camera_duplicate camera db r Hs Hm) in H. discriminate.
  - rewrite (create_camera_new camera db Hnone) in H. injection H as <- <-.
    eexists. split; [now apply listing_returns|].
    apply filter_In. split.
    + apply in_query. unfold stored. simpl. apply lookup_insert_eq.
    + now apply str_eqb_eq.
Qed.

Lemma created_camera_is_listed_witness :
  exists listed,
    get_cameras_by_zipcode (lit "12345") (<[11 := main_st]> seeded) = Return listed /\
    In (Camera.mk 11 main_st) listed.
Proof.
  apply (created_camera_is_listed main_st seeded (<[11 := main_st]> seeded)
           (Camera.mk 11 main_st)).
  - vm_compute. reflexivity.
  - reflexivity.
Defined.

Section Repeating.

Lemma merge_nothing (old : Columns.t) : merge nothing_supplied old = old.
Proof. now destruct old. Qed.

Lemma merge_field_idem {A} (p : provided A) (old : A) :
  merge_field p (merge_field p old) = merge_field p old.
Proof. now destruct p as [|[v|]]. Qed.

Lemma merge_idem (camera : CameraUpdate.t) (old : Columns.t) :
  merge camera (merge camera old) = merge camera old.
Proof. unfold merge. simpl. now rewrite !merge_field_idem. Qed.

Lemma merge_update_of_create (c old : Columns.t) : merge (update_of_create c) old = c.
Proof. now destruct c. Qed.

Lemma startup_event_nonempty (db : Table) : db <> ∅ -> startup_event db = db.
Proof.
  intros H. unfold startup_event.
  destruct (Z.eqb_spec (Z.of_nat (length (query db))) 0) as [E|E]; [|reflexivity].
  destruct H. apply query_empty. destruct (query db); [reflexivity | discriminate].
Qed.

End Repeating.

(** X17.  An update that supplies no field at all is answered with the
    stored record as it is and leaves the table as it is; the validated
    form of the request behaves the same. *)
Theorem empty_update_returns_stored_record (camera_id : Z) (db : Table) (old : Columns.t) :
  db !! camera_id = Some old ->
  update_camera camera_id nothing_supplied db = (Return (Camera.mk camera_id old), db) /\
  put_cameras camera_id nothing_supplied db = (Return (Camera.mk camera_id old), db).
Proof.
  intros H.
  assert (E : update_camera camera_id nothing_supplied db
              = (Return (Camera.mk camera_id old), db)).
  { rewrite (update_camera_result _ _ _ _ H). simpl.
    now rewrite merge_nothing, (insert_id db camera_id old H). }
  split; [exact E | exact E].
Qed.

Lemma empty_update_returns_stored_record_witness :
  update_camera 1 nothing_supplied seeded = (Return camera_1, seeded) /\
  put_cameras 1 nothing_supplied seeded = (Return camera_1, seeded).
Proof.
  apply (empty_update_returns_stored_record 1 seeded (Camera.columns camera_1)).
  reflexivity.
Defined.

(** X18.  Sending an update a second time changes nothing more: on the
    table the first request leaves, the same request for the same id has
    the same outcome and leaves the same table, whether the first one
    returned, met no record or ended in an integrity error. *)
Theorem update_twice_is_update_once (camera_id : Z) (camera : CameraUpdate.t) (db : Table) :
  update_camera camera_id camera (snd (update_camera camera_id camera db))
  = update_camera camera_id camera db.
Proof.
  destruct (db !! camera_id) as [old|] eqn:E.
  - rewrite (update_camera_result _ _ _ _ E).
    destruct (no_null camera) eqn:Hn; simpl.
    + rewrite (update_camera_result camera_id camera _ (merge camera old)
                 (lookup_insert_eq db camera_id _)).
      now rewrite Hn, merge_idem, insert_insert_eq.
    + now rewrite (update_camera_result _ _ _ _ E), Hn.
  - rewrite (update_camera_missing _ _ _ E). simpl.
    now rewrite (update_camera_missing _ _ _ E).
Qed.

(** X19.  A create that returns adds exactly one row, a delete that
    returns removes exactly one, and an update never changes the number
    of rows, whatever its outcome. *)
Theorem requests_and_row_count (db : Table) :
  (forall camera row db',
     create_camera camera db = (Return row, db') ->
     length (query db') = S (length (query db))) /\
  (forall camera_id message db',
     delete_camera camera_id db = (Return message, db') ->
     S (length (query db')) = length (query db)) /\
  (forall camera_id camera,
     length (query (snd (update_camera camera_id camera db))) = length (query db)).
Proof.
  rewrite !length_query. split; [|split].
  - intros camera row db' H.
    destruct (create_camera_cases camera db) as [[r [Hs Hm]] | Hnone].
    + rewrite (create_camera_duplicate camera db r Hs Hm) in H. discriminate.
    + rewrite (create_camera_new camera db Hnone) in H. injection H as _ <-.
      rewrite length_query. apply map_size_insert_None, next_rowid_fresh.
  - intros i message db' H. rewrite delete_camera_result in H.
    destruct (db !! i) as [old|] eqn:E; [|discriminate]. injection H as _ <-.
    rewrite length_query, map_size_delete_Some by (now exists old).
    assert (size db <> 0%nat) by (intros Hz; apply map_size_empty_iff in Hz; subst;
                                   rewrite lookup_empty in E; discriminate).
    lia.
  - intros i camera. rewrite length_query.
    destruct (db !! i) as [old|] eqn:E.
    + rewrite (update_camera_result _ _ _ _ E).
      destruct (no_null camera); [|reflexivity]. simpl.
      apply map_size_insert_Some. now exists old.
    + now rewrite (update_camera_missing _ _ _ E).
Qed.

Lemma requests_and_row_count_witness :
  length (query (<[11 := main_st]> seeded)) = S (length (query seeded)) /\
  S (length (query (delete 1 seeded))) = length (query seeded).
Proof.
  split.
  - apply (proj1 (requests_and_row_count seeded) main_st (Camera.mk 11 main_st)).
    vm_compute. reflexivity.
  - apply (proj1 (proj2 (requests_and_row_count seeded)) 1
             (lit "Camera deleted successfully")).
    vm_compute. reflexivity.
Defined.

(** X20.  The two request models agree: an update that supplies all five
    fields with values passes validation exactly when the create body with
    these values does, and on a stored record it replaces every column,
    returning the body under the old id. *)
Theorem full_update_is_checked_like_create (c : CameraCreate) :
  CameraUpdate_valid (update_of_create c) = CameraCreate_valid c /\
  (forall camera_id (db : Table) old,
     db !! camera_id = Some old ->
     update_camera camera_id (update_of_create c) db =
     (Return (Camera.mk camera_id c), <[camera_id := c]> db)).
Proof.
  split.
  - unfold CameraCreate_valid. rewrite <- validate_direction_optional_Some.
    now destruct c.
  - intros i db old H. rewrite (update_camera_result _ _ _ _ H). simpl.
    now rewrite merge_update_of_create.
Qed.

Lemma full_update_is_checked_like_create_witness :
  update_camera 1 (update_of_create main_st) seeded =
  (Return (Camera.mk 1 main_st), <[1 := main_st]> seeded).
Proof.
  apply (proj2 (full_update_is_checked_like_create main_st) 1 seeded
           (Camera.columns camera_1)).
  reflexivity.
Defined.

(** X21.  The seeding at startup touches an empty table only: a table
    with a row is left as it is, the empty table gets the ten sample
    cameras under the ids 1 to 10, the table after startup is never empty,
    and a second startup changes nothing. *)
Theorem startup_seeds_only_when_empty (db : Table) :
  (db <> ∅ -> startup_event db = db) /\
  (db = ∅ ->
   startup_event db =
   list_to_map (combine [1; 2; 3; 4; 5; 6; 7; 8; 9; 10] sample_cameras)) /\
  startup_event db <> ∅ /\
  startup_event (startup_event db) = startup_event db.
Proof.
  assert (Hseed : startup_event ∅ = seeded) by reflexivity.
  assert (Hne : seeded <> ∅).
  { intros E. apply query_empty in E. vm_compute in E. discriminate. }
  split; [apply startup_event_nonempty|]. split.
  - intros ->. vm_compute. reflexivity.
  - destruct (decide (db = ∅)) as [-> | Hd].
    + rewrite Hseed. split; [exact Hne | now apply startup_event_nonempty].
    + rewrite (startup_event_nonempty db Hd). split; [exact Hd|].
      now apply startup_event_nonempty.
Qed.

Lemma startup_seeds_only_when_empty_witness :
  startup_event seeded = seeded /\
  startup_event ∅ =
  list_to_map (combine [1; 2; 3; 4; 5; 6; 7; 8; 9; 10] sample_cameras).
Proof.
  split.
  - apply (proj1 (startup_seeds_only_when_empty seeded)).
    intros E. apply query_empty in E. vm_compute in E. discriminate.
  - apply (proj1 (proj2 (startup_seeds_only_when_empty ∅))). reflexivity.
Defined.

(** X22.  A delete cannot be repeated: after a delete of an id, whatever
    its outcome, a second delete of the same id fails and leaves the table
    as the first one left it, with the 404 error if the id fits a 64-bit
    integer and with an overflow error if it does not. *)
Theorem second_delete_is_not_found (camera_id : Z) (db : Table) :
  (fits_int64 camera_id = true ->
   delete_camera camera_id (snd (delete_camera camera_id db)) =
   (Raise (HTTPException 404 (lit "Camera not found")),
    snd (delete_camera camera_id db))) /\
  (fits_int64 camera_id = false ->
   delete_camera camera_id (snd (delete_camera camera_id db)) =
   (Raise OverflowError, snd (delete_camera camera_id db))).
Proof.
  assert (H : delete_camera camera_id (snd (delete_camera camera_id db)) =
              (Raise (missing camera_id), snd (delete_camera camera_id db))).
  { rewrite (delete_camera_result camera_id db).
    destruct (db !! camera_id) eqn:E; simpl.
    - now rewrite delete_camera_result, lookup_delete_eq.
    - now rewrite delete_camera_result, E. }
  rewrite H. unfold missing. split; intros ->; reflexivity.
Qed.

(** Camera 1 of the seeded table deleted twice, and the id 2^63. *)
Lemma second_delete_is_not_found_witness :
  delete_camera 1 (snd (delete_camera 1 seeded)) =
  (Raise (HTTPException 404 (lit "Camera not found")), snd (delete_camera 1 seeded)) /\
  delete_camera (2 ^ 63) (snd (delete_camera (2 ^ 63) seeded)) =
  (Raise OverflowError, snd (delete_camera (2 ^ 63) seeded)).
Proof.
  split.
  - apply (proj1 (second_delete_is_not_found 1 seeded)). reflexivity.
  - apply (proj2 (second_delete_is_not_found (2 ^ 63) seeded)). reflexivity.
Defined.

(** X23.  The check of the direction is exact and case-sensitive: an
    accepted value is returned unchanged and is one of the eight listed
    values, every other value raises the error that names them, and the
    lower-case spelling of a listed value is among those rejected. *)
Theorem direction_is_checked_exactly (v : str) :
  (In v valid_directions -> validate_direction v = Return v) /\
  (~ In v valid_directions ->
   validate_direction v =
   Raise (ValueError
            (lit "Direction must be one of ['N', 'S', 'E', 'W', 'NE', 'NW', 'SE', 'SW']"))) /\
  (In v valid_directions -> ~ In (lower v) valid_directions).
Proof.
  assert (H : existsb (str_eqb v) valid_directions = true <-> In v valid_directions).
  { rewrite existsb_exists. split.
    - intros [x [Hx Hv]]. apply str_eqb_eq in Hv. now subst.
    - intros Hv. exists v. split; [exact Hv | now apply str_eqb_eq]. }
  unfold validate_direction. split; [|split].
  - intros Hv. apply H in Hv. now rewrite Hv.
  - intros Hv. destruct (existsb (str_eqb v) valid_directions); [|reflexivity].
    destruct Hv. now apply H.
  - intros Hv. unfold valid_directions in Hv. simpl in Hv.
    repeat (destruct Hv as [<- | Hv]; [vm_compute; intuition discriminate|]).
    destruct Hv.
Qed.

Lemma direction_is_checked_exactly_witness :
  validate_direction (lit "NW") = Return (lit "NW") /\
  validate_direction (lit "nw") =
  Raise (ValueError
           (lit "Direction must be one of ['N', 'S', 'E', 'W', 'NE', 'NW', 'SE', 'SW']")).
Proof.
  split.
  - apply (proj1 (direction_is_checked_exactly (lit "NW"))). vm_compute. tauto.
  - apply (proj1 (proj2 (direction_is_checked_exactly (lit "nw")))).
    apply (proj2 (proj2 (direction_is_checked_exactly (lit "NW")))). vm_compute. tauto.
Defined.


